(** * eGauge extraction backend: sanitizers, tariff classifier, delta reducer

    A shallow embedding of [backend/utils/sanitizers.py],
    [backend/utils/tariff_classifier.py] and
    [backend/services/egauge_service.py], with the properties of the
    specification stated and proved over it; then of the batched writes
    of [backend/services/supabase_service.py], the rows prepared by
    [backend/routes/data.py], [backend/utils/validators.py] and
    [backend/others/extractor.py], with properties read off the code.

    Conventions.
    - A Python [str] is a [string]; a character is the code point 0..255
      (Latin-1) held by [ascii].
    - A Python [dict] with string keys is a [gmap string _], a [set] of
      strings a [gset string]; the dictionary of a device row, whose
      order decides which missing key is reported, is the list of its
      items.
    - An [int] is a [Z]; a [float] that holds a whole number is the [Z]
      it holds, and the conversion of an [int] to a [float] rounds.
    - A raised exception is the [Raise] branch of [outcome], and
      [x ← e; k] runs [k] when [e] did not raise.
    - [datetime], [float] and the C library behind them are as CPython
      has them on a platform with a 64-bit [time_t]. *)

From Stdlib Require Import ZArith Ascii String.
From stdpp Require Import base tactics option list strings gmap pretty.

Local Open Scope string_scope.
Local Open Scope list_scope.

(** ** Characters *)

Module Char.

Definition ord (c : ascii) : N := N_of_ascii c.
Definition chr (n : N) : ascii := ascii_of_N n.

Definition between (lo hi : N) (c : ascii) : bool :=
  ((lo <=? ord c) && (ord c <=? hi))%N.

(** [c.lower()] on one code point below 256: [A-Z] and the accented
    capitals U+00C0..U+00DE (but not the sign U+00D7) move up by 32. *)
Definition lower (c : ascii) : ascii :=
  if between 65 90 c then chr (ord c + 32)
  else if between 192 214 c || between 216 222 c then chr (ord c + 32)
  else c.

(** Membership in the class [[a-z0-9_]]. *)
Definition is_word (c : ascii) : bool :=
  between 97 122 c || between 48 57 c || Ascii.eqb c "_".

Definition is_us (c : ascii) : bool := Ascii.eqb c "_".

(** [c.isdigit()] below 256: the decimal digits and the superscripts
    U+00B2, U+00B3, U+00B9. *)
Definition isdigit (c : ascii) : bool :=
  between 48 57 c || between 178 179 c || between 185 185 c.

End Char.

(** ** String primitives used by the sanitizers *)

Module Str.

Fixpoint map (f : ascii -> ascii) (s : string) : string :=
  match s with
  | EmptyString => EmptyString
  | String c t => String (f c) (map f t)
  end.

Fixpoint all (p : ascii -> bool) (s : string) : bool :=
  match s with
  | EmptyString => true
  | String c t => p c && all p t
  end.

(** [s.lower()] *)
Definition lower (s : string) : string := map Char.lower s.

(** [s.replace(old, new)] for a one-character [old]. *)
Fixpoint replace (old : ascii) (new : string) (s : string) : string :=
  match s with
  | EmptyString => EmptyString
  | String c t =>
      if Ascii.eqb c old then new +:+ replace old new t
      else String c (replace old new t)
  end.

(** [re.sub(r'[^a-z0-9_]', '_', s)]: every character outside the class
    is replaced, one by one. *)
Definition sub_nonword (s : string) : string :=
  map (fun c => if Char.is_word c then c else "_"%char) s.

Definition starts_with (p : ascii -> bool) (s : string) : bool :=
  match s with
  | EmptyString => false
  | String c _ => p c
  end.

(** [re.sub(r'_+', '_', s)]: every maximal run of underscores becomes one
    underscore; an underscore followed by an underscore is dropped. *)
Fixpoint sub_underscores (s : string) : string :=
  match s with
  | EmptyString => EmptyString
  | String c t =>
      if Char.is_us c && starts_with Char.is_us t then sub_underscores t
      else String c (sub_underscores t)
  end.

(** [s.lstrip('_')] and [s.rstrip('_')]. *)
Fixpoint lstrip (s : string) : string :=
  match s with
  | EmptyString => EmptyString
  | String c t => if Char.is_us c then lstrip t else s
  end.

Definition is_empty (s : string) : bool :=
  match s with EmptyString => true | _ => false end.

Fixpoint rstrip (s : string) : string :=
  match s with
  | EmptyString => EmptyString
  | String c t =>
      let t' := rstrip t in
      if Char.is_us c && is_empty t' then EmptyString else String c t'
  end.

(** [s.strip('_')] *)
Definition strip (s : string) : string := rstrip (lstrip s).

End Str.

(** ** [backend/utils/sanitizers.py] *)

Definition sanitize_table_name (name : string) : string :=
  let table := Str.lower name in
  let table := Str.sub_nonword table in
  let table := Str.sub_underscores table in
  let table := Str.strip table in
  let table :=
    if negb (Str.is_empty table) && Str.starts_with Char.isdigit table
    then "data_" +:+ table else table in
  if Str.is_empty table then "data_client" else table.

Definition sanitize_column_name (name : string) : string :=
  let column := Str.lower name in
  let column := Str.replace "+" "_plus" column in
  let column := Str.replace "-" "_" column in
  let column := Str.sub_nonword column in
  let column := Str.sub_underscores column in
  let column := Str.strip column in
  column.

(** The [while sanitized in seen] loop of [make_columns_unique].  Each
    round tests one candidate; [fuel] bounds the number of rounds and
    [None] means the bound was reached. *)
Fixpoint rename_loop (fuel : nat) (seen : gset string)
    (original sanitized : string) (counter : nat) : option string :=
  match fuel with
  | O => None
  | S fuel' =>
      if bool_decide (sanitized ∈ seen)
      then rename_loop fuel' seen original
             (original +:+ "_" +:+ pretty counter) (S counter)
      else Some sanitized
  end.

(** The [for col in columns] loop, threading [seen] and [unique_columns].
    The inner loop gets one round more than [seen] has elements. *)
Fixpoint columns_loop (columns : list string) (seen : gset string)
    (unique_columns : list string) : option (list string) :=
  match columns with
  | [] => Some unique_columns
  | col :: rest =>
      let sanitized := sanitize_column_name col in
      let original := sanitized in
      match rename_loop (S (size seen)) seen original sanitized 2 with
      | Some sanitized =>
          columns_loop rest ({[sanitized]} ∪ seen) (unique_columns ++ [sanitized])%list
      | None => None
      end
  end.

Definition make_columns_unique (columns : list string) : option (list string) :=
  columns_loop columns ∅ [].

(** ** Exceptions

    The exceptions the embedded code raises or meets, each with what the
    message of [str(e)] needs. *)

Inductive exn :=
| KeyError (key : string)
| IndexError
| ValueError (msg : string)
| OverflowError (msg : string)
| OSError (msg : string)
| DeviceError (msg : string).

(** [str(e)]; the quoting of a key is the one [repr] applies to a string
    without quotes, backslashes or control characters. *)
Definition str_exn (e : exn) : string :=
  match e with
  | KeyError key => "'" +:+ key +:+ "'"
  | IndexError => "list index out of range"
  | ValueError msg => msg
  | OverflowError msg => msg
  | OSError msg => msg
  | DeviceError msg => msg
  end.

Inductive outcome (A : Type) :=
| Ok (a : A)
| Raise (e : exn).
Arguments Ok {A} a.
Arguments Raise {A} e.

(** Sequencing: the first exception raised ends the computation. *)
#[global] Instance outcome_ret : MRet outcome := fun A a => Ok a.
#[global] Instance outcome_bind : MBind outcome := fun A B f m =>
  match m with
  | Ok a => f a
  | Raise e => Raise e
  end.

(** [d[key]] on a dictionary with string keys. *)
Definition getitem {V : Type} (d : gmap string V) (key : string) : outcome V :=
  match d !! key with
  | Some v => Ok v
  | None => Raise (KeyError key)
  end.

(** ** Calendar arithmetic of the [datetime] module

    The proleptic Gregorian ordinal of a date and its inverse, as the
    standard library computes them; [//] and [%] are floor division and
    remainder, which is what [Z.div] and [Z.modulo] are for a positive
    divisor. *)

Record datetime := mk_datetime {
  year : Z; month : Z; day : Z;
  hour : Z; minute : Z; second : Z; microsecond : Z
}.

(** A [datetime.time]. *)
Record time := mk_time {
  t_hour : Z; t_minute : Z; t_second : Z; t_microsecond : Z
}.

Module Calendar.
Local Open Scope Z_scope.

Definition MINYEAR : Z := 1.
Definition MAXYEAR : Z := 9999.

Definition DAYS_IN_MONTH : list Z :=
  [-1; 31; 28; 31; 30; 31; 30; 31; 31; 30; 31; 30; 31].
Definition DAYS_BEFORE_MONTH : list Z :=
  [-1; 0; 31; 59; 90; 120; 151; 181; 212; 243; 273; 304; 334].

Definition table (l : list Z) (i : Z) : Z := nth (Z.to_nat i) l 0.

Definition is_leap (y : Z) : bool :=
  (y mod 4 =? 0) && (negb (y mod 100 =? 0) || (y mod 400 =? 0)).

Definition days_before_year (y : Z) : Z :=
  let y := y - 1 in y * 365 + y / 4 - y / 100 + y / 400.

Definition days_in_month (y m : Z) : Z :=
  if (m =? 2) && is_leap y then 29 else table DAYS_IN_MONTH m.

Definition days_before_month (y m : Z) : Z :=
  table DAYS_BEFORE_MONTH m + (if (2 <? m) && is_leap y then 1 else 0).

Definition ymd2ord (y m d : Z) : Z :=
  days_before_year y + days_before_month y m + d.

Definition DI400Y : Z := 146097.
Definition DI100Y : Z := 36524.
Definition DI4Y : Z := 1461.

Definition ord2ymd (n : Z) : Z * Z * Z :=
  let n := n - 1 in
  let n400 := n / DI400Y in let n := n mod DI400Y in
  let y := n400 * 400 + 1 in
  let n100 := n / DI100Y in let n := n mod DI100Y in
  let n4 := n / DI4Y in let n := n mod DI4Y in
  let n1 := n / 365 in let n := n mod 365 in
  let y := y + n100 * 100 + n4 * 4 + n1 in
  if (n1 =? 4) || (n100 =? 4) then (y - 1, 12, 31)
  else
    let leapyear := (n1 =? 3) && (negb (n4 =? 24) || (n100 =? 3)) in
    let m := Z.shiftr (n + 50) 5 in
    let preceding :=
      table DAYS_BEFORE_MONTH m + (if (2 <? m) && leapyear then 1 else 0) in
    if n <? preceding then
      let m := m - 1 in
      let preceding :=
        preceding
        - (table DAYS_IN_MONTH m + (if (m =? 2) && leapyear then 1 else 0)) in
      (y, m, n - preceding + 1)
    else (y, m, n - preceding + 1).

(** [date.weekday()]: Monday is 0, Sunday is 6. *)
Definition weekday (dt : datetime) : Z :=
  (ymd2ord (year dt) (month dt) (day dt) + 6) mod 7.

(** The invariant every [datetime] object satisfies. *)
Definition datetime_ok (dt : datetime) : bool :=
  (1 <=? year dt) && (year dt <=? 9999)
  && (1 <=? month dt) && (month dt <=? 12)
  && (1 <=? day dt) && (day dt <=? days_in_month (year dt) (month dt))
  && (0 <=? hour dt) && (hour dt <? 24)
  && (0 <=? minute dt) && (minute dt <? 60)
  && (0 <=? second dt) && (second dt <? 60)
  && (0 <=? microsecond dt) && (microsecond dt <? 1000000).

(** The civil time of the process's zone at the instant [t], a whole
    number of epoch seconds: [utcoffset t] is the offset of the zone from
    UTC, in seconds, at that instant.  Years before 1 are counted as the
    C library counts them: 0, -1, ... *)
Definition civil (utcoffset : Z -> Z) (t : Z) : datetime :=
  let t := t + utcoffset t in
  let days := t / 86400 in
  let secs := t mod 86400 in
  let '(y, m, d) := ord2ymd (days + 719163) in
  mk_datetime y m d (secs / 3600) (secs mod 3600 / 60) (secs mod 60) 0.

(** The C library's [localtime_r] on a 64-bit [time_t]: it fails when
    the year, counted from 1900, does not fit the [int] field that is to
    hold it, and the interpreter raises the [OSError] of [EOVERFLOW]. *)
Definition localtime (utcoffset : Z -> Z) (t : Z) : outcome datetime :=
  let tm := civil utcoffset t in
  if (- 2 ^ 31 <=? year tm - 1900) && (year tm - 1900 <? 2 ^ 31) then Ok tm
  else Raise (OSError "[Errno 75] Value too large for defined data type").

(** The local time at [t] as a date of the [datetime] module, whose
    years run from [MINYEAR] to [MAXYEAR]. *)
Definition local (utcoffset : Z -> Z) (t : Z) : outcome datetime :=
  tm ← localtime utcoffset t;
  if (MINYEAR <=? year tm) && (year tm <=? MAXYEAR) then Ok tm
  else Raise (ValueError ("year " +:+ pretty (year tm) +:+ " is out of range")).

(** Seconds of a local time since the start of the calendar. *)
Definition utc_to_seconds (dt : datetime) : Z :=
  ((ymd2ord (year dt) (month dt) (day dt) * 24 + hour dt) * 60 + minute dt) * 60
  + second dt.

Definition max_fold_seconds : Z := 24 * 3600.

(** [datetime.fromtimestamp(t)] for a float [t] that holds a whole
    number, without a time zone argument.  The timestamp has to fit
    [time_t]; the local time has to be a date of the module; and so has
    the local time a day earlier, and the one at the transition if there
    was one in between, which are probed to tell the two readings of a
    repeated hour apart. *)
Definition fromtimestamp (utcoffset : Z -> Z) (t : Z) : outcome datetime :=
  if negb ((- 2 ^ 63 <=? t) && (t <=? 2 ^ 63))
  then Raise (OverflowError "timestamp out of range for platform time_t")
  else
    result ← local utcoffset t;
    probe ← local utcoffset (t - max_fold_seconds);
    let transition :=
      utc_to_seconds result - utc_to_seconds probe - max_fold_seconds in
    if transition <? 0
    then probe ← local utcoffset (t + transition); Ok result
    else Ok result.

(** Zero-padded decimal of a non-negative number. *)
Definition zpad (width : nat) (n : Z) : string :=
  let s := pretty n in
  String.concat "" (replicate (width - String.length s) "0") +:+ s.

(** [strftime("%Y-%m-%d")] and [strftime("%H:%M:%S")].  The C library
    the interpreter formats with writes the year of [%Y] without padding. *)
Definition strftime_date (dt : datetime) : string :=
  pretty (year dt) +:+ "-" +:+ zpad 2 (month dt) +:+ "-" +:+ zpad 2 (day dt).
Definition strftime_time (dt : datetime) : string :=
  zpad 2 (hour dt) +:+ ":" +:+ zpad 2 (minute dt) +:+ ":" +:+ zpad 2 (second dt).

(** Order of [datetime.time] values: the tuples
    (hour, minute, second, microsecond) compared lexicographically. *)
Definition time_cmp (a b : time) : comparison :=
  match t_hour a ?= t_hour b with
  | Eq =>
      match t_minute a ?= t_minute b with
      | Eq =>
          match t_second a ?= t_second b with
          | Eq => t_microsecond a ?= t_microsecond b
          | c => c
          end
      | c => c
      end
  | c => c
  end.

Definition time_lt (a b : time) : bool :=
  match time_cmp a b with Lt => true | _ => false end.
Definition time_le (a b : time) : bool :=
  match time_cmp a b with Gt => false | _ => true end.

(** A [time] as a number of microseconds since midnight, and the
    ranges of its fields below the hour. *)
Definition time_key (a : time) : Z :=
  ((t_hour a * 60 + t_minute a) * 60 + t_second a) * 1000000
  + t_microsecond a.

Definition time_ok (a : time) : Prop :=
  0 <= t_minute a < 60 /\ 0 <= t_second a < 60
  /\ 0 <= t_microsecond a < 1000000.

End Calendar.

(** ** [backend/utils/tariff_classifier.py] *)

(** [Literal["Base", "Intermedio", "Punta"]] *)
Inductive TariffType := Base | Intermedio | Punta.

Definition tariff_str (t : TariffType) : string :=
  match t with
  | Base => "Base"
  | Intermedio => "Intermedio"
  | Punta => "Punta"
  end.

Module TariffClassifier.
Import Calendar.
Local Open Scope Z_scope.

Definition _classify_weekday (current_time : time) : TariffType :=
  let peak_start := mk_time 18 0 0 0 in
  let peak_end := mk_time 22 0 0 0 in
  let intermediate_morning_start := mk_time 6 0 0 0 in
  let intermediate_morning_end := mk_time 10 0 0 0 in
  let intermediate_evening_start := mk_time 22 0 0 0 in
  let intermediate_evening_end := mk_time 23 59 59 0 in
  if time_le peak_start current_time && time_lt current_time peak_end
  then Punta
  else if (time_le intermediate_morning_start current_time
           && time_lt current_time intermediate_morning_end)
          || (time_le intermediate_evening_start current_time
              && time_le current_time intermediate_evening_end)
  then Intermedio
  else Base.

Definition classify_tariff (timestamp : datetime) : TariffType :=
  let hour := hour timestamp in
  let minute := minute timestamp in
  let day_of_week := weekday timestamp in
  let current_time := mk_time hour minute 0 0 in
  let is_weekend := 5 <=? day_of_week in
  if is_weekend then Base else _classify_weekday current_time.

End TariffClassifier.

(** ** Values of an output row *)

(** A [str], an [int], or a [float] that holds a whole number. *)
Inductive Val :=
| VStr (s : string)
| VInt (n : Z)
| VFloat (x : Z).

(** ** Floats of integers *)

Module Float.
Local Open Scope Z_scope.

Definition MANT_DIG : Z := 53.
Definition MAX_EXP : Z := 1024.

(** [n.bit_length()] of a non-negative [n]. *)
Definition bit_length (n : Z) : Z := if n =? 0 then 0 else Z.log2 n + 1.

(** [n] without its [shift] lowest bits, rounded to the nearest number,
    a tie going to the even one. *)
Definition round_half_even (n shift : Z) : Z :=
  let q := n / 2 ^ shift in
  let r := n mod 2 ^ shift in
  let half := 2 ^ (shift - 1) in
  if r <? half then q
  else if half <? r then q + 1
  else if Z.even q then q else q + 1.

(** [float(n)] of an [int]: the nearest double, which is [n] itself up
    to 53 bits and a multiple of a power of two beyond; [OverflowError]
    when no finite double is nearest. *)
Definition of_int (n : Z) : outcome Z :=
  let a := Z.abs n in
  if bit_length a <=? MANT_DIG then Ok n
  else
    let shift := bit_length a - MANT_DIG in
    let m := round_half_even a shift * 2 ^ shift in
    if 2 ^ MAX_EXP <=? m
    then Raise (OverflowError "int too large to convert to float")
    else Ok (Z.sgn n * m).

End Float.

(** ** The device library's rows

    The device library ([egauge.webapi]) is not part of the repository;
    the code uses three things of the rows a register query yields, and
    this is the model of them.

    A row has the timestamp [ts], in whole epoch seconds, and the
    dictionary [regs] from the name of a register to its cumulative
    value, a whole number, kept as the list of its items in insertion
    order.  The registers are plain counters: the library's conversion
    of a register of a physical type to its unit of display is not
    modelled. *)
Record Row := mk_row { ts : Z; regs : list (string * Z) }.

(** [regs[name]] *)
Fixpoint regs_get (regs : list (string * Z)) (name : string) : outcome Z :=
  match regs with
  | [] => Raise (KeyError name)
  | (key, v) :: rest =>
      if String.eqb key name then Ok v else regs_get rest name
  end.

(** The loop of a row difference: from every register of the left row,
    in order, the value the right row has under the same name is
    subtracted, and a name the right row lacks is a [KeyError]. *)
Fixpoint regs_sub (regs subtrahend : list (string * Z))
    : outcome (list (string * Z)) :=
  match regs with
  | [] => Ok []
  | (name, v) :: rest =>
      v' ← regs_get subtrahend name;
      rest' ← regs_sub rest subtrahend;
      Ok ((name, (v - v')%Z) :: rest')
  end.

(** [a - b] on rows. *)
Definition row_sub (a b : Row) : outcome Row :=
  regs' ← regs_sub (regs a) (regs b);
  Ok (mk_row (ts a - ts b) regs').

(** The quantity [pq_accu] answers with.  It is an object of a class
    without [__bool__] or [__len__], so any quantity counts as true in a
    condition. *)
Record Quantity := mk_quantity { value : Z }.

Definition truth (q : Quantity) : bool := true.

(** [row.pq_accu(regname)]: the accumulated value of a register of the
    row, a [KeyError] for a name the row lacks. *)
Definition pq_accu (r : Row) (regname : string) : outcome Quantity :=
  v ← regs_get (regs r) regname;
  Ok (mk_quantity v).

(** ** [backend/services/egauge_service.py] *)

Module EGaugeService.
Import Calendar.

(** The inner [for regname in registers] loop of [_process_rows],
    updating [row] in place. *)
Fixpoint registers_loop (delta_row : Row)
    (register_mapping : gmap string string)
    (registers : list string) (row : gmap string Val)
    : outcome (gmap string Val) :=
  match registers with
  | [] => Ok row
  | regname :: rest =>
      accu ← pq_accu delta_row regname;
      col_name ← getitem register_mapping regname;
      x ← (if truth accu then Float.of_int (value accu) else Ok 0%Z);
      registers_loop delta_row register_mapping rest (<[col_name := VFloat x]> row)
  end.

(** One round of the outer loop: the row built from [rows[i]] and
    [rows[i + 1]]. *)
Definition interval_row (utcoffset : Z -> Z) (rows_i rows_i1 : Row)
    (registers : list string) (register_mapping : gmap string string)
    : outcome (gmap string Val) :=
  delta_row ← row_sub rows_i rows_i1;
  timestamp_float ← Float.of_int (ts rows_i1);
  timestamp ← fromtimestamp utcoffset timestamp_float;
  let tariff := TariffClassifier.classify_tariff timestamp in
  let row : gmap string Val :=
    <["tariff" := VStr (tariff_str tariff)]>
      (<["timestamp" := VInt timestamp_float]>
         (<["time" := VStr (strftime_time timestamp)]>
            (<["date" := VStr (strftime_date timestamp)]> ∅))) in
  registers_loop delta_row register_mapping registers row.

(** The row of a round before the registers are added. *)
Definition base_row (timestamp : datetime) (timestamp_float : Z)
    : gmap string Val :=
  <["tariff" := VStr (tariff_str (TariffClassifier.classify_tariff timestamp))]>
    (<["timestamp" := VInt timestamp_float]>
       (<["time" := VStr (strftime_time timestamp)]>
          (<["date" := VStr (strftime_date timestamp)]> ∅))).

(** The outer [for i in range(len(rows) - 1)] loop, appending to [data]. *)
Fixpoint rows_loop (utcoffset : Z -> Z) (rows : list Row)
    (registers : list string) (register_mapping : gmap string string)
    (indices : list nat) (data : list (gmap string Val))
    : outcome (list (gmap string Val)) :=
  match indices with
  | [] => Ok data
  | i :: rest =>
      match rows !! i, rows !! (i + 1) with
      | Some rows_i, Some rows_i1 =>
          row ← interval_row utcoffset rows_i rows_i1 registers register_mapping;
          rows_loop utcoffset rows registers register_mapping rest (data ++ [row])%list
      | _, _ => Raise IndexError
      end
  end.

Definition _process_rows (utcoffset : Z -> Z) (rows : list Row)
    (registers : list string) (register_mapping : gmap string string)
    : outcome (list (gmap string Val)) :=
  rows_loop utcoffset rows registers register_mapping
            (seq 0 (List.length rows - 1)) [].

(** [dict(zip(keys, values))]: pairs are inserted from left to right, a
    later pair overwriting an earlier one with the same key. *)
Definition dict_zip (keys values : list string) : gmap string string :=
  foldl (fun m kv => <[kv.1 := kv.2]> m) ∅ (zip keys values).

(** What [extract_data] gets from outside: the device behind a URL and
    the clock.  [device_open url] is [webapi.device.Device(url, auth)];
    [register_query url time_param] is the register query for a time
    parameter, giving [list(ret)] and [list(ret.regs)]; times are epoch
    seconds. *)
Record World := mk_world {
  device_open : string -> outcome unit;
  register_query : string -> string -> outcome (list Row * list string);
  now : Z;
  utcoffset : Z -> Z
}.

(** The dictionary [extract_data] returns. *)
Inductive Result :=
| Failure (error : string)
| Success (columns : list string) (sanitized_columns : list string)
          (register_mapping : gmap string string)
          (data : list (gmap string Val)) (total_records : nat).

Definition time_param_str (start_ts delta_seconds end_ts : Z) : string :=
  pretty start_ts +:+ ":" +:+ pretty delta_seconds +:+ ":" +:+ pretty end_ts.

Definition not_enough_data (n : nat) : string :=
  "Not enough data in the specified range. Received only " +:+ pretty n
  +:+ " rows. The device may not have data for this period.".

Definition unexpected (e : exn) : Result :=
  Failure ("Unexpected error: " +:+ str_exn e).

(** [start_date] and [end_date] are dates whose [timestamp()] is
    defined, given as the seconds [int(d.timestamp())] makes of them.
    The result is [None] only if the renaming loop of
    [make_columns_unique] reaches its bound, which
    [make_columns_unique_total] excludes. *)
Definition extract_data (w : World) (url : string)
    (start_date end_date : Z) (delta_hours : Z) : option Result :=
  match device_open w url with
  | Raise auth_error =>
      Some (Failure ("Authentication failed: " +:+ str_exn auth_error))
  | Ok _ =>
      let delta_seconds := (delta_hours * 3600)%Z in
      let start_ts := start_date in
      let end_ts := if (now w <? end_date)%Z then now w else end_date in
      let time_param := time_param_str start_ts delta_seconds end_ts in
      match register_query w url time_param with
      | Raise data_error =>
          Some (Failure
                  ("Failed to read data from device. The device may not have "
                   +:+ "data for this period. Error: " +:+ str_exn data_error))
      | Ok (rows, registers) =>
          if (List.length rows <? 2)%nat
          then Some (Failure (not_enough_data (List.length rows)))
          else
            sanitized_registers ← make_columns_unique registers;
            let register_mapping := dict_zip registers sanitized_registers in
            let columns := (["Date"; "Time"; "Timestamp"] ++ registers)%list in
            match _process_rows (utcoffset w) rows registers register_mapping with
            | Raise e => Some (unexpected e)
            | Ok data =>
                Some (Success columns sanitized_registers register_mapping
                              data (List.length data))
            end
      end
  end.

(** The time parameter [extract_data] sends to the device. *)
Definition requested (w : World) (start_date end_date delta_hours : Z)
    : string :=
  time_param_str start_date (delta_hours * 3600)
    (if (now w <? end_date)%Z then now w else end_date).

(** The records a result carries. *)
Definition records_of (r : Result) : list (gmap string Val) :=
  match r with
  | Failure _ => []
  | Success _ _ _ data _ => data
  end.

(** The keys every output row starts with. *)
Definition fixed_keys : list string := ["date"; "time"; "timestamp"; "tariff"].

(** The value stored for a register:
    [float(accu.value) if accu else 0.0] of [delta_row.pq_accu(regname)]. *)
Definition delta_value (delta_row : Row) (regname : string) : outcome Val :=
  accu ← pq_accu delta_row regname;
  x ← (if truth accu then Float.of_int (value accu) else Ok 0%Z);
  Ok (VFloat x).

End EGaugeService.

(** ** The contracts as the specification words them *)

Module Spec.
Local Open Scope Z_scope.

(** "replaces any run of characters outside [a-z0-9_] with a single _" *)
Fixpoint replace_runs (s : string) : string :=
  match s with
  | EmptyString => EmptyString
  | String c t =>
      if Char.is_word c then String c (replace_runs t)
      else if Str.starts_with (fun c => negb (Char.is_word c)) t
           then replace_runs t
           else String "_" (replace_runs t)
  end.

(** The pipeline common to both variants: lower-case, [+] to [_plus],
    [-] to [_], runs of other characters to [_], repeated [_]
    collapsed, [_] trimmed at both ends. *)
Definition normalize (label : string) : string :=
  Str.strip (Str.sub_underscores (replace_runs
    (Str.replace "-" "_" (Str.replace "+" "_plus" (Str.lower label))))).

(** "If the result is empty, or (for table names specifically) starts
    with a digit, prefix a fixed literal (data_)". *)
Definition sanitizeIdentifier (for_table : bool) (label : string) : string :=
  let r := normalize label in
  if Str.is_empty r || (for_table && Str.starts_with Char.isdigit r)
  then "data_" +:+ r else r.

(** The table variant as the code has it: the same passes without the
    [_plus] mapping, the prefix for a leading digit only, and a fixed
    name for an empty result. *)
Definition table_identifier (name : string) : string :=
  let r :=
    Str.strip (Str.sub_underscores (replace_runs
      (Str.replace "-" "_" (Str.lower name)))) in
  if Str.is_empty r then "data_client"
  else if Str.starts_with Char.isdigit r then "data_" +:+ r
  else r.

(** "appending _2, _3, ... to the sanitized form": the [k]-th name tried
    for a sanitized form, the form itself coming first. *)
Definition candidate (original : string) (k : nat) : string :=
  if (k <=? 1)%nat then original else original +:+ "_" +:+ pretty k.

(** Seconds since midnight of a timestamp. *)
Definition time_of_day (dt : datetime) : Z :=
  3600 * hour dt + 60 * minute dt + second dt.

Definition hm (h m : Z) : Z := 3600 * h + 60 * m.

(** The weekly schedule of section 4.2, on the weekday number
    (Monday 0 .. Sunday 6) and the time of day. *)
Definition classify (day_of_week tod : Z) : TariffType :=
  if (day_of_week =? 5) || (day_of_week =? 6) then Base
  else if (hm 18 0 <=? tod) && (tod <? hm 22 0) then Punta
  else if (hm 6 0 <=? tod) && (tod <? hm 10 0) then Intermedio
  else if (hm 22 0 <=? tod) && (tod <=? hm 23 59 + 59) then Intermedio
  else Base.

End Spec.

(** ** Sample devices

    Two readings, newest first, of a device with one register. *)

Module Sample.
Import EGaugeService.
Local Open Scope Z_scope.

Definition readings (label : string) : list Row :=
  [ mk_row 200 [(label, 50)]; mk_row 100 [(label, 30)] ].

(** One reading only; two readings the older of which lacks the
    register; and two readings the newer of which lacks it. *)
Definition single : list Row := [ mk_row 200 [("A", 50)] ].

Definition gappy : list Row :=
  [ mk_row 200 [("A", 50)]; mk_row 100 [] ].

Definition gappy_newer : list Row :=
  [ mk_row 200 []; mk_row 100 [("A", 30)] ].


(** A device that answers every query with [rows] and declares
    [registers]; the clock is at [now], the zone is UTC. *)
Definition device (rows : list Row) (registers : list string) (now : Z)
    : World :=
  mk_world (fun _ => Ok tt) (fun _ _ => Ok (rows, registers)) now (fun _ => 0).

Definition utc : Z -> Z := fun _ => 0.

(** The device of the specification's example, and the records its
    extraction over any window yields. *)
Definition device_A : World := device (readings "A") ["A"] 1000.

Definition records_A : list (gmap string Val) :=
  match extract_data device_A "device" 0 300 1 with
  | Some r => records_of r
  | None => []
  end.

(** A record as the reducer builds it. *)
Definition record_100 : gmap string Val :=
  {[ "date" := VStr "1970-01-01"; "time" := VStr "00:01:40";
     "timestamp" := VInt 100; "tariff" := VStr "Base"; "a" := VFloat 20 ]}.

(** Three readings of the register A, newest first, and the records
    the reducer makes of them. *)
Definition three : list Row :=
  [ mk_row 300 [("A", 50)]; mk_row 200 [("A", 30)];
    mk_row 100 [("A", 5)] ].

Definition records_three : list (gmap string Val) :=
  match _process_rows utc three ["A"] (dict_zip ["A"] ["a"]) with
  | Ok data => data
  | Raise _ => []
  end.

End Sample.

(** ** Shapes of sanitized identifiers *)

Module Shape.

(** No two adjacent underscores. *)
Fixpoint no_dbl (s : string) : bool :=
  match s with
  | EmptyString => true
  | String c t =>
      negb (Char.is_us c && Str.starts_with Char.is_us t) && no_dbl t
  end.

(** What both sanitizers produce before any prefix is added: only
    characters of [[a-z0-9_]], runs of underscores collapsed, no
    underscore at either end. *)
Definition clean (s : string) : Prop :=
  Str.all Char.is_word s = true /\ no_dbl s = true /\ Str.strip s = s.

End Shape.

(** ** [backend/services/supabase_service.py]: batched writes *)

Module SupabaseService.

(** [range(0, stop, step)] for a [stop] that is a length: the multiples
    of a positive [step] below [stop]; nothing for a negative [step]. *)
Definition range0 (stop : nat) (step : Z) : list nat :=
  if (0 <? step)%Z
  then (fun k => k * Z.to_nat step)%nat
         <$> seq 0 (Z.to_nat ((Z.of_nat stop + step - 1) / step))
  else [].

(** What [insert_data_batch] can raise: the [ValueError] of a [range]
    with step zero, or whatever the store raised. *)
Inductive batch_error (E : Type) :=
| RangeStepZero
| UpsertFailed (e : E).
Arguments RangeStepZero {E}.
Arguments UpsertFailed {E} e.

Inductive batch_result (E : Type) :=
| Inserted (records_inserted : nat)
| Failed (e : batch_error E).
Arguments Inserted {E} records_inserted.
Arguments Failed {E} e.

Section insert.
Context {S E A : Type}.

(** [self.client.table(table_name).upsert(batch, on_conflict=...).execute()]:
    the store after the call, and the exception if it raised one. *)
Variable upsert : S -> string -> list A -> S * option E.

(** The [for i in range(0, len(data), batch_size)] loop. *)
Fixpoint batch_loop (table_name : string) (data : list A) (batch_size : nat)
    (starts : list nat) (s : S) (records_inserted : nat)
    : S * batch_result E :=
  match starts with
  | [] => (s, Inserted records_inserted)
  | i :: rest =>
      let batch := take batch_size (drop i data) in
      match upsert s table_name batch with
      | (s', Some e) => (s', Failed (UpsertFailed e))
      | (s', None) =>
          batch_loop table_name data batch_size rest s'
                     (records_inserted + List.length batch)
      end
  end.

Definition insert_data_batch (s : S) (table_name : string) (data : list A)
    (batch_size : Z) : S * batch_result E :=
  if (batch_size =? 0)%Z then (s, Failed RangeStepZero)
  else batch_loop table_name data (Z.to_nat batch_size)
                  (range0 (List.length data) batch_size) s 0.

End insert.

(** The slice [data[i:i + size]]. *)
Definition slice {A : Type} (data : list A) (size i : nat) : list A :=
  take size (drop i data).

(** A store that only keeps a log of the batches it is given, in order,
    and raises what [fails] says for a batch, after logging it. *)
Definition logging {E A : Type} (fails : list A -> option E)
    (log : list (list A)) (table_name : string) (batch : list A)
    : list (list A) * option E :=
  (log ++ [batch], fails batch).

(** The store that never raises. *)
Definition recording {A : Type}
    : list (list A) -> string -> list A -> list (list A) * option Empty_set :=
  logging (fun _ => None).

End SupabaseService.

(** ** [backend/routes/data.py]: records prepared for insertion *)

Module DataRoute.

(** The keys the comprehension leaves out of the spread. *)
Definition own_keys : list string := ["date"; "time"; "timestamp"; "tariff"].

Definition subscript (row : gmap string Val) (key : string) : outcome Val :=
  match row !! key with
  | Some v => Ok v
  | None => Raise (KeyError key)
  end.

(** The dictionary display built for one [row]: the four entries, then
    the spread of the remaining items of [row], an item of the spread
    replacing an entry with the same key. *)
Definition prepare_row (row : gmap string Val) : outcome (gmap string Val) :=
  match subscript row "date" with
  | Raise e => Raise e
  | Ok date =>
  match subscript row "time" with
  | Raise e => Raise e
  | Ok time =>
  match subscript row "timestamp" with
  | Raise e => Raise e
  | Ok timestamp =>
  match subscript row "tariff" with
  | Raise e => Raise e
  | Ok tariff =>
      let rest := filter (fun kv => kv.1 ∉ own_keys) row in
      Ok (rest ∪ (<["tariff" := tariff]>
                    (<["timestamp_egauge" := timestamp]>
                       (<["time" := time]> (<["date" := date]> ∅)))))
  end end end end.

(** The [for row in data_rows] loop, appending to [data_to_insert]. *)
Fixpoint prepare_loop (data_rows : list (gmap string Val))
    (data_to_insert : list (gmap string Val))
    : outcome (list (gmap string Val)) :=
  match data_rows with
  | [] => Ok data_to_insert
  | row :: rest =>
      match prepare_row row with
      | Raise e => Raise e
      | Ok prepared => prepare_loop rest (data_to_insert ++ [prepared])
      end
  end.

Definition prepare_rows (data_rows : list (gmap string Val))
    : outcome (list (gmap string Val)) :=
  prepare_loop data_rows [].

(** The columns of a client's table that hold the record itself. *)
Definition record_columns : list string :=
  ["date"; "time"; "timestamp_egauge"; "tariff"].

End DataRoute.

(** ** [backend/utils/validators.py] *)

Module Validators.

(** The tuple [(is_valid, error_message, start_date, end_date)]. *)
Record validation := mk_validation {
  is_valid : bool;
  error_message : option string;
  start_date : option Z;
  end_date : option Z
}.

Definition rejected (message : string) : validation :=
  mk_validation false (Some message) None None.

(** What [datetime.strptime(_, '%Y-%m-%d')] gives: a date, as the
    seconds of its midnight on the local clock, or a [ValueError] with
    its message. *)
Inductive parsed :=
| Date (seconds : Z)
| ValueError (message : string).

(** [strptime] is the parser; [now1] and [now2] are the two readings of
    [datetime.now()], in whole seconds of the same clock. *)
Definition validate_date_range (strptime : string -> parsed)
    (now1 now2 : Z) (start_date_str end_date_str : string)
    (max_days_history : Z) : validation :=
  match strptime start_date_str with
  | ValueError e =>
      rejected ("Invalid date format. Use YYYY-MM-DD. Error: " +:+ e)
  | Date start_date =>
      match strptime end_date_str with
      | ValueError e =>
          rejected ("Invalid date format. Use YYYY-MM-DD. Error: " +:+ e)
      | Date end_date =>
          if (end_date <? start_date)%Z
          then rejected "Start date must be before end date"
          else if (now1 <? start_date)%Z
          then rejected "Start date cannot be in the future"
          else
            let days_diff := ((now2 - start_date) / 86400)%Z in
            if (max_days_history <? days_diff)%Z
            then rejected ("Start date is more than " +:+ pretty max_days_history
                           +:+ " days in the past. "
                           +:+ "The device may not have data that old.")
            else mk_validation true None (Some start_date) (Some end_date)
      end
  end.

End Validators.

(** ** [backend/others/extractor.py]: the alias of a device *)

Module Extractor.

(** [s.split(sep)] for a one-character separator. *)
Fixpoint split (sep : ascii) (s : string) : list string :=
  match s with
  | EmptyString => [EmptyString]
  | String c t =>
      if Ascii.eqb c sep then EmptyString :: split sep t
      else match split sep t with
           | piece :: pieces => String c piece :: pieces
           | [] => [String c EmptyString]
           end
  end.

(** [s.endswith(c)] for a one-character suffix. *)
Fixpoint endswith (c : ascii) (s : string) : bool :=
  match s with
  | EmptyString => false
  | String a EmptyString => Ascii.eqb a c
  | String _ t => endswith c t
  end.

(** [l[-1]] and [l[0]] on the pieces of a split, which are never none. *)
Definition last_piece (l : list string) : string := List.last l EmptyString.
Definition first_piece (l : list string) : string := List.hd EmptyString l.

Definition alias (url : string) : string :=
  if endswith "/" url then last_piece (split "/" url)
  else first_piece (split "." (last_piece (split "/" url))).

Definition contains (c : ascii) (s : string) : bool :=
  negb (Str.all (fun a => negb (Ascii.eqb a c)) s).

End Extractor.

(** ** Sample dates *)

Module Days.
Local Open Scope Z_scope.

(** A parser that knows two days, and a device whose clock is at noon of
    the first. *)
Definition parse_day (s : string) : Validators.parsed :=
  if String.eqb s "1970-01-02" then Validators.Date 86400
  else if String.eqb s "1970-01-03" then Validators.Date 172800
  else Validators.ValueError "unconverted data remains".


End Days.


(** ** [backend/others/extractor.py]: a month of data *)

Module MonthExtractor.
Import Calendar EGaugeService.
Local Open Scope Z_scope.

(** What [extract_month_data] gets from outside.  [connect url] is the
    opening of the device and the reading of its rights, a [DeviceError]
    standing for the library's own [webapi.Error]; [month_query url
    time_param] gives [list(ret)] and [list(ret.regs)]; [mktime d] is
    [int(d.timestamp())] of a naive date, which the zone's rules decide
    and which raises near the ends of the calendar; [zone] is the offset
    of the local zone; [unit_of] is the unit the library gives the
    quantity of a register. *)
Record Env := mk_env {
  connect : string -> outcome unit;
  month_query : string -> string -> outcome (list Row * list string);
  mktime : datetime -> outcome Z;
  zone : Z -> Z;
  unit_of : string -> string
}.

(** The dictionary returned: an error, or the data of the month. *)
Inductive MonthResult :=
| MonthError (error url alias : string)
| MonthData (url alias period_start period_end : string)
            (headers : list string) (data : list (gmap string Val))
            (summary : gmap string (Val * string)) (total_intervals : Z).

(** What leaves the function as an exception. *)
Inductive escaped :=
| IllegalMonthError (month : Z)
| Uncaught (e : exn).

(** [datetime(year, month, day, hour, 0, 0)] for a month and a day that
    exist: the year has to fit the C types it is read into and to be a
    year of the calendar. *)
Definition new_datetime (year month day hour : Z) : outcome datetime :=
  if negb ((- 2 ^ 63 <=? year) && (year <? 2 ^ 63))
  then Raise (OverflowError "Python int too large to convert to C long")
  else if 2 ^ 31 <=? year
  then Raise (OverflowError "signed integer is greater than maximum")
  else if year <? - 2 ^ 31
  then Raise (OverflowError "signed integer is less than minimum")
  else if negb ((MINYEAR <=? year) && (year <=? MAXYEAR))
  then Raise (ValueError ("year " +:+ pretty year +:+ " is out of range"))
  else Ok (mk_datetime year month day hour 0 0 0).

(** [d.isoformat()] of a time in whole seconds. *)
Definition isoformat (d : datetime) : string :=
  zpad 4 (year d) +:+ "-" +:+ zpad 2 (month d) +:+ "-" +:+ zpad 2 (day d)
  +:+ "T" +:+ strftime_time d.

(** The inner [for regname in ret.regs] loop. *)
Fixpoint month_registers_loop (delta_row : Row) (registers : list string)
    (row_data : gmap string Val) : outcome (gmap string Val) :=
  match registers with
  | [] => Ok row_data
  | regname :: rest =>
      accu ← pq_accu delta_row regname;
      v ← (if truth accu then x ← Float.of_int (value accu); Ok (VFloat x)
           else Ok (VInt 0));
      month_registers_loop delta_row rest (<[regname := v]> row_data)
  end.

(** One round of the loop over the intervals. *)
Definition month_row (zone : Z -> Z) (rows_i rows_i1 : Row)
    (registers : list string) : outcome (gmap string Val) :=
  delta_row ← row_sub rows_i rows_i1;
  timestamp_float ← Float.of_int (ts rows_i1);
  timestamp ← fromtimestamp zone timestamp_float;
  let row_data : gmap string Val :=
    <["timestamp" := VFloat timestamp_float]>
      (<["time" := VStr (strftime_time timestamp)]>
         (<["date" := VStr (strftime_date timestamp)]> ∅)) in
  month_registers_loop delta_row registers row_data.

(** The [for i in range(len(rows)-1)] loop. *)
Fixpoint month_rows_loop (zone : Z -> Z) (rows : list Row)
    (registers : list string) (indices : list nat)
    (processed_data : list (gmap string Val))
    : outcome (list (gmap string Val)) :=
  match indices with
  | [] => Ok processed_data
  | i :: rest =>
      match rows !! i, rows !! (i + 1)%nat with
      | Some rows_i, Some rows_i1 =>
          row_data ← month_row zone rows_i rows_i1 registers;
          month_rows_loop zone rows registers rest (processed_data ++ [row_data])
      | _, _ => Raise IndexError
      end
  end.

(** The [for regname in delta_total.regs] loop of the summary. *)
Fixpoint summary_loop (unit_of : string -> string) (delta_total : Row)
    (names : list string) (summary : gmap string (Val * string))
    : outcome (gmap string (Val * string)) :=
  match names with
  | [] => Ok summary
  | regname :: rest =>
      accu ← pq_accu delta_total regname;
      if truth accu
      then
        x ← Float.of_int (value accu);
        summary_loop unit_of delta_total rest
          (<[regname := (VFloat x, unit_of regname)]> summary)
      else summary_loop unit_of delta_total rest summary
  end.

(** [rows[0]] and [rows[-1]]. *)
Definition first_of (rows : list Row) : outcome Row :=
  match rows !! 0%nat with
  | Some row => Ok row
  | None => Raise IndexError
  end.

Definition last_of (rows : list Row) : outcome Row :=
  match List.last (Some <$> rows) None with
  | Some row => Ok row
  | None => Raise IndexError
  end.

(** Steps 3 and 4: the body of the last [try]. *)
Definition month_report (env : Env) (url alias : string) (rows : list Row)
    (registers : list string) (total_intervals : Z) : outcome MonthResult :=
  let headers := (["Date"; "Time"; "Timestamp"] ++ registers)%list in
  processed_data ← month_rows_loop (zone env) rows registers
                     (seq 0 (List.length rows - 1)) [];
  first_row ← first_of rows;
  last_row ← last_of rows;
  delta_total ← row_sub first_row last_row;
  first_stamp ← Float.of_int (ts last_row);
  first_time ← fromtimestamp (zone env) first_stamp;
  last_stamp ← Float.of_int (ts first_row);
  last_time ← fromtimestamp (zone env) last_stamp;
  summary ← summary_loop (unit_of env) delta_total (regs delta_total).*1 ∅;
  Ok (MonthData url alias (isoformat first_time) (isoformat last_time)
        headers processed_data summary total_intervals).

Definition extract_month_data (env : Env) (url : string) (year month : Z)
    : escaped + MonthResult :=
  if negb ((1 <=? month) && (month <=? 12)) then inl (IllegalMonthError month)
  else
    let last_day := days_in_month year month in
    match new_datetime year month 1 0 with
    | Raise e => inl (Uncaught e)
    | Ok start_date =>
    match new_datetime year month last_day 23 with
    | Raise e => inl (Uncaught e)
    | Ok end_date =>
    match mktime env start_date with
    | Raise e => inl (Uncaught e)
    | Ok start_ts =>
    match mktime env end_date with
    | Raise e => inl (Uncaught e)
    | Ok end_ts =>
        let delta := 3600 in
        let time_param := time_param_str start_ts delta end_ts in
        let alias := Extractor.alias url in
        match connect env url with
        | Raise (DeviceError msg) => inr (MonthError msg url alias)
        | Raise e => inl (Uncaught e)
        | Ok _ =>
            match month_query env url time_param with
            | Raise e => inr (MonthError (str_exn e) url alias)
            | Ok (rows, registers) =>
                let total_intervals := Z.of_nat (List.length rows) - 1 in
                if total_intervals =? 0
                then inr (MonthError "Insufficient data" url alias)
                else
                  match month_report env url alias rows registers
                          total_intervals with
                  | Raise e => inr (MonthError (str_exn e) url alias)
                  | Ok result => inr result
                  end
            end
        end
    end end end end.

(** The first and the last hour of a month. *)
Definition month_start (year month : Z) : datetime :=
  mk_datetime year month 1 0 0 0 0.

Definition month_end (year month : Z) : datetime :=
  mk_datetime year month (days_in_month year month) 23 0 0 0.

(** A device that answers every query with [rows], declaring the
    register A measured in kWh, in the zone UTC, where the timestamp of a
    date is defined from the second day of year 1 to the day before the
    last of year 9999. *)
Definition sample_env (rows : list Row) : Env :=
  mk_env (fun _ => Ok tt) (fun _ _ => Ok (rows, ["A"]))
    (fun d =>
       let t := (ymd2ord (year d) (month d) (day d) - 719163) * 86400
                + hour d * 3600 + minute d * 60 + second d in
       if (-62135510400 <=? t) && (t <? 253402214400) then Ok t
       else Raise (ValueError "year 0 is out of range"))
    (fun _ => 0) (fun _ => "kWh").

End MonthExtractor.
(** ** Proof automation *)

(** Case analysis on the eight bits of a character. *)
Ltac ascii_cases c := destruct c as [[] [] [] [] [] [] [] []].

(** Case analysis on the integer tests of the goal, one at a time,
    closing the branches whose tests contradict each other. *)
Ltac split_test :=
  match goal with
  | |- context [(?x <? ?y)%Z] => case (Z.ltb_spec x y); intro
  | |- context [(?x <=? ?y)%Z] => case (Z.leb_spec x y); intro
  | |- context [(?x =? ?y)%Z] => case (Z.eqb_spec x y); intro
  end.

Ltac split_tests :=
  repeat (split_test; cbn [andb orb negb]; try (exfalso; lia)).

(** Evaluation of the lookups in the month tables and of the tests and
    differences of two numerals. *)
Ltac eval_tables :=
  repeat match goal with
         | |- context [Calendar.table ?l ?i] =>
             let v := eval vm_compute in (Calendar.table l i) in
             change (Calendar.table l i) with v
         end.

Ltac eval_closed :=
  repeat match goal with
         | |- context [Z.sub (Zpos ?a) (Zpos ?b)] =>
             let v := eval vm_compute in (Z.sub (Zpos a) (Zpos b)) in
             change (Z.sub (Zpos a) (Zpos b)) with v
         | |- context [Z.ltb (Zpos ?a) (Zpos ?b)] =>
             let v := eval vm_compute in (Z.ltb (Zpos a) (Zpos b)) in
             change (Z.ltb (Zpos a) (Zpos b)) with v
         | |- context [Z.eqb (Zpos ?a) (Zpos ?b)] =>
             let v := eval vm_compute in (Z.eqb (Zpos a) (Zpos b)) in
             change (Z.eqb (Zpos a) (Zpos b)) with v
         end.

(** * Properties *)

(** ** Characters *)

Lemma word_lower c : Char.is_word c = true -> Char.lower c = c.
Proof. ascii_cases c; vm_compute; congruence. Qed.

Lemma word_not_plus c : Char.is_word c = true -> Ascii.eqb c "+" = false.
Proof. ascii_cases c; vm_compute; congruence. Qed.

Lemma word_not_minus c : Char.is_word c = true -> Ascii.eqb c "-" = false.
Proof. ascii_cases c; vm_compute; congruence. Qed.

Lemma us_word c : Char.is_us c = true -> Char.is_word c = true.
Proof. ascii_cases c; vm_compute; congruence. Qed.

Lemma digit_not_us c : Char.isdigit c = true -> Char.is_us c = false.
Proof. ascii_cases c; vm_compute; congruence. Qed.

(** ** The string passes, one by one *)

Section passes.
Import Str Shape.

Lemma all_sub_nonword s : all Char.is_word (sub_nonword s) = true.
Proof.
  unfold sub_nonword. induction s as [|c t IH]; simpl; [done|].
  rewrite IH, andb_true_r.
  destruct (Char.is_word c) eqn:Hc; [done|reflexivity].
Qed.

Lemma starts_sub_underscores s :
  starts_with Char.is_us (sub_underscores s) = starts_with Char.is_us s.
Proof.
  induction s as [|c t IH]; simpl; [done|].
  destruct (Char.is_us c) eqn:Hc; simpl.
  - destruct (starts_with Char.is_us t) eqn:Ht; simpl; [by rewrite IH|done].
  - by rewrite Hc.
Qed.

Lemma all_sub_underscores p s :
  all p s = true -> all p (sub_underscores s) = true.
Proof.
  induction s as [|c t IH]; simpl; [done|].
  intros [Hc Ht]%andb_true_iff.
  destruct (Char.is_us c && starts_with Char.is_us t); simpl; auto.
  by rewrite Hc, IH.
Qed.

Lemma all_lstrip p s : all p s = true -> all p (lstrip s) = true.
Proof.
  induction s as [|c t IH]; simpl; [done|].
  intros H. destruct (Char.is_us c); [|done].
  apply andb_true_iff in H as [_ Ht]. auto.
Qed.

Lemma all_rstrip p s : all p s = true -> all p (rstrip s) = true.
Proof.
  induction s as [|c t IH]; simpl; [done|].
  intros [Hc Ht]%andb_true_iff.
  destruct (Char.is_us c && is_empty (rstrip t)); simpl; [done|].
  by rewrite Hc, IH.
Qed.

Lemma lower_word s : all Char.is_word s = true -> lower s = s.
Proof.
  unfold lower. induction s as [|c t IH]; simpl; [done|].
  intros [Hc Ht]%andb_true_iff. by rewrite word_lower, IH.
Qed.

Lemma replace_absent old new s :
  all (fun c => negb (Ascii.eqb c old)) s = true -> replace old new s = s.
Proof.
  induction s as [|c t IH]; simpl; [done|].
  intros [Hc Ht]%andb_true_iff.
  apply negb_true_iff in Hc. by rewrite Hc, IH.
Qed.

Lemma all_impl (p q : ascii -> bool) s :
  (forall c, p c = true -> q c = true) -> all p s = true -> all q s = true.
Proof.
  intros Hpq. induction s as [|c t IH]; simpl; [done|].
  intros [Hc Ht]%andb_true_iff. by rewrite (Hpq _ Hc), IH.
Qed.

Lemma replace_plus_word s :
  all Char.is_word s = true -> replace "+" "_plus" s = s.
Proof.
  intros H. apply replace_absent. revert H. apply all_impl.
  intros c Hc. by rewrite word_not_plus.
Qed.

Lemma replace_minus_word s :
  all Char.is_word s = true -> replace "-" "_" s = s.
Proof.
  intros H. apply replace_absent. revert H. apply all_impl.
  intros c Hc. by rewrite word_not_minus.
Qed.

Lemma sub_nonword_word s : all Char.is_word s = true -> sub_nonword s = s.
Proof.
  unfold sub_nonword. induction s as [|c t IH]; simpl; [done|].
  intros [Hc Ht]%andb_true_iff. by rewrite Hc, IH.
Qed.

Lemma no_dbl_sub_underscores s : no_dbl (sub_underscores s) = true.
Proof.
  induction s as [|c t IH]; simpl; [done|].
  destruct (Char.is_us c && starts_with Char.is_us t) eqn:E; [done|].
  simpl. by rewrite starts_sub_underscores, E, IH.
Qed.

Lemma sub_underscores_no_dbl s : no_dbl s = true -> sub_underscores s = s.
Proof.
  induction s as [|c t IH]; simpl; [done|].
  intros [Hc Ht]%andb_true_iff. apply negb_true_iff in Hc.
  by rewrite Hc, IH.
Qed.

Lemma no_dbl_lstrip s : no_dbl s = true -> no_dbl (lstrip s) = true.
Proof.
  induction s as [|c t IH]; [done|].
  intros H. simpl. destruct (Char.is_us c); [|done].
  simpl in H. apply andb_true_iff in H as [_ Ht]. auto.
Qed.

Lemma starts_rstrip p s :
  starts_with p (rstrip s) = true -> starts_with p s = true.
Proof.
  destruct s as [|c t]; simpl; [done|].
  by destruct (Char.is_us c && is_empty (rstrip t)).
Qed.

Lemma no_dbl_rstrip s : no_dbl s = true -> no_dbl (rstrip s) = true.
Proof.
  induction s as [|c t IH]; simpl; [done|].
  intros [Hc Ht]%andb_true_iff.
  destruct (Char.is_us c && is_empty (rstrip t)); simpl; [done|].
  rewrite IH, andb_true_r by done.
  apply negb_true_iff. apply negb_true_iff in Hc.
  destruct (Char.is_us c); simpl in *; [|done].
  destruct (starts_with Char.is_us (rstrip t)) eqn:E; [|done].
  apply starts_rstrip in E. congruence.
Qed.

Lemma starts_lstrip s : starts_with Char.is_us (lstrip s) = false.
Proof.
  induction s as [|c t IH]; simpl; [done|].
  destruct (Char.is_us c) eqn:Hc; [done|]. simpl. exact Hc.
Qed.

Lemma lstrip_no_lead s : starts_with Char.is_us s = false -> lstrip s = s.
Proof. destruct s as [|c t]; simpl; [done|]. by intros ->. Qed.

Lemma rstrip_rstrip s : rstrip (rstrip s) = rstrip s.
Proof.
  induction s as [|c t IH]; simpl; [done|].
  destruct (Char.is_us c && is_empty (rstrip t)) eqn:E; simpl; [done|].
  by rewrite IH, E.
Qed.

Lemma strip_strip s : strip (strip s) = strip s.
Proof.
  unfold strip. rewrite (lstrip_no_lead (rstrip (lstrip s))).
  - apply rstrip_rstrip.
  - destruct (starts_with Char.is_us (rstrip (lstrip s))) eqn:E; [|done].
    apply starts_rstrip in E. by rewrite starts_lstrip in E.
Qed.

(** The last three passes always end in a clean string. *)
Lemma clean_finish s :
  all Char.is_word s = true -> clean (strip (sub_underscores s)).
Proof.
  intros H. unfold clean, strip. split; [|split].
  - by apply all_rstrip, all_lstrip, all_sub_underscores.
  - apply no_dbl_rstrip, no_dbl_lstrip, no_dbl_sub_underscores.
  - apply strip_strip.
Qed.

(** On a clean string every pass of the column sanitizer is the
    identity. *)
Lemma sanitize_column_name_clean s : clean s -> sanitize_column_name s = s.
Proof.
  intros (Hw & Hd & Hs). unfold sanitize_column_name.
  rewrite lower_word, replace_plus_word, replace_minus_word,
    sub_nonword_word, sub_underscores_no_dbl by done.
  exact Hs.
Qed.

Lemma clean_sanitize_column_name s : clean (sanitize_column_name s).
Proof. apply clean_finish, all_sub_nonword. Qed.

End passes.

(** ** The table sanitizer *)

Section table.
Import Str Shape.

Lemma strip_cons_not_us c t :
  Char.is_us c = false -> strip (String c t) = String c t ->
  rstrip (String c t) = String c t.
Proof. unfold strip. simpl lstrip. by intros ->. Qed.

Lemma rstrip_cons_keep a s :
  rstrip s = s -> is_empty s = false -> rstrip (String a s) = String a s.
Proof. intros Hr He. cbn [rstrip]. by rewrite Hr, He, andb_false_r. Qed.

(** Prefixing [data_] to a clean string that starts with a digit keeps
    it clean. *)
Lemma clean_data_prefix c t :
  Char.isdigit c = true -> clean (String c t) -> clean ("data_" +:+ String c t).
Proof.
  intros Hd (Hw & Hn & Hs).
  pose proof (digit_not_us _ Hd) as Hus.
  pose proof (strip_cons_not_us _ _ Hus Hs) as Hr.
  split; [|split].
  - simpl. simpl in Hw. exact Hw.
  - simpl. simpl in Hn. rewrite Hus. simpl. rewrite Hus in Hn. exact Hn.
  - unfold strip.
    change (lstrip ("data_" +:+ String c t)) with ("data_" +:+ String c t).
    change ("data_" +:+ String c t)
      with (String "d" (String "a" (String "t" (String "a"
              (String "_" (String c t)))))).
    repeat (apply rstrip_cons_keep; [|done]). exact Hr.
Qed.

Lemma sanitize_table_name_clean t :
  clean t -> is_empty t = false -> starts_with Char.isdigit t = false ->
  sanitize_table_name t = t.
Proof.
  intros (Hw & Hn & Hs) He Hd. unfold sanitize_table_name.
  rewrite lower_word, sub_nonword_word, sub_underscores_no_dbl, Hs by done.
  rewrite He, Hd. simpl. by rewrite He.
Qed.

Lemma sanitize_table_name_shape name :
  clean (sanitize_table_name name)
  /\ is_empty (sanitize_table_name name) = false
  /\ starts_with Char.isdigit (sanitize_table_name name) = false.
Proof.
  unfold sanitize_table_name.
  pose proof (clean_finish (sub_nonword (lower name)) (all_sub_nonword _)) as Hc.
  destruct (strip (sub_underscores (sub_nonword (lower name)))) as [|c t].
  - repeat split; vm_compute; reflexivity.
  - cbn [is_empty negb andb starts_with].
    destruct (Char.isdigit c) eqn:Hd.
    + split; [by apply clean_data_prefix|]. split; reflexivity.
    + cbn [is_empty]. split; [exact Hc|]. split; [reflexivity|exact Hd].
Qed.

End table.

(** ** Runs of foreign characters *)

Section runs.
Import Str Spec.

Lemma starts_replace_runs s :
  starts_with Char.is_us (replace_runs s)
  = starts_with Char.is_us (sub_nonword s).
Proof.
  unfold sub_nonword.
  induction s as [|c t IH]; simpl; [done|].
  destruct (Char.is_word c) eqn:Hc; simpl; [done|].
  destruct (starts_with (fun c => negb (Char.is_word c)) t) eqn:Ht; [|done].
  rewrite IH. destruct t as [|c' t']; simpl in *; [done|].
  apply negb_true_iff in Ht. by rewrite Ht.
Qed.

(** Replacing runs first, or character by character and collapsing
    afterwards, is the same once underscores are collapsed. *)
Lemma sub_underscores_replace_runs s :
  sub_underscores (replace_runs s) = sub_underscores (sub_nonword s).
Proof.
  induction s as [|c t IH]; [done|].
  pose proof (starts_replace_runs t) as Hst.
  unfold sub_nonword in *. cbn [replace_runs map].
  destruct (Char.is_word c) eqn:Hc.
  - cbn [sub_underscores]. by rewrite Hst, IH.
  - destruct (starts_with (fun c => negb (Char.is_word c)) t) eqn:Ht.
    + rewrite IH. cbn [sub_underscores].
      destruct t as [|c' t']; simpl in Ht; [done|].
      apply negb_true_iff in Ht. cbn [map starts_with]. rewrite Ht.
      reflexivity.
    + cbn [sub_underscores]. by rewrite Hst, IH.
Qed.

Lemma sanitize_column_name_normalize label :
  sanitize_column_name label = normalize label.
Proof.
  unfold sanitize_column_name, normalize.
  by rewrite sub_underscores_replace_runs.
Qed.

(** Mapping [-] to [_] beforehand changes nothing for the character by
    character substitution: both are underscores afterwards. *)
Lemma sub_nonword_replace_minus s :
  sub_nonword (replace "-" "_" s) = sub_nonword s.
Proof.
  unfold sub_nonword. induction s as [|c t IH]; [done|].
  cbn [replace]. destruct (Ascii.eqb c "-") eqn:E.
  - apply Ascii.eqb_eq in E as ->.
    change ("_" +:+ replace "-" "_" t) with (String "_" (replace "-" "_" t)).
    cbn [map]. rewrite IH. reflexivity.
  - cbn [map]. by rewrite IH.
Qed.

Lemma sanitize_table_name_identifier name :
  sanitize_table_name name = table_identifier name.
Proof.
  unfold sanitize_table_name, table_identifier.
  rewrite sub_underscores_replace_runs, sub_nonword_replace_minus.
  destruct (strip _) as [|c t]; [reflexivity|].
  cbn [is_empty negb andb starts_with].
  destruct (Char.isdigit c); reflexivity.
Qed.

End runs.

(** ** The renaming loop of [make_columns_unique] *)

Section unique.
Import Spec.

Lemma str_app_inv_head (p a b : string) : p +:+ a = p +:+ b -> a = b.
Proof. induction p as [|c p IH]; simpl; [done|]. intros [= H]. auto. Qed.

Lemma str_length_app (a b : string) :
  String.length (a +:+ b) = (String.length a + String.length b)%nat.
Proof. induction a as [|c a IH]; simpl; [done|]. by rewrite IH. Qed.

Lemma candidate_inj original (j k : nat) :
  (1 ≤ j)%nat -> (1 ≤ k)%nat -> candidate original j = candidate original k -> j = k.
Proof.
  intros Hj Hk. unfold candidate.
  destruct (Nat.leb_spec j 1) as [Hj1|Hj1], (Nat.leb_spec k 1) as [Hk1|Hk1];
    intros H.
  - lia.
  - apply (f_equal String.length) in H.
    rewrite str_length_app in H. simpl in H. lia.
  - apply (f_equal String.length) in H.
    rewrite str_length_app in H. simpl in H. lia.
  - apply str_app_inv_head in H. injection H as H.
    by apply pretty_nat_inj in H.
Qed.

Lemma candidate_succ original (j : nat) :
  (1 ≤ j)%nat -> original +:+ "_" +:+ pretty (S j) = candidate original (S j).
Proof.
  intros Hj. unfold candidate. destruct (Nat.leb_spec (S j) 1); [lia|done].
Qed.

(** A name the loop returns is the first candidate, from the one it was
    started at, that is not in [seen]. *)
Lemma rename_loop_Some seen original fuel : forall (j : nat) name,
  (1 ≤ j)%nat ->
  rename_loop fuel seen original (candidate original j) (S j) = Some name ->
  exists k : nat, (j ≤ k)%nat /\ name = candidate original k /\ (name ∉ seen)
            /\ (forall i : nat, (j ≤ i < k)%nat -> candidate original i ∈ seen).
Proof.
  induction fuel as [|fuel IH]; intros j name Hj; simpl; [done|].
  case_bool_decide as Hin.
  - rewrite candidate_succ by done. intros H.
    apply IH in H as (k & Hk & -> & Hout & Hbelow); [|lia].
    exists k. split; [lia|]. split; [done|]. split; [done|].
    intros i Hi. destruct (decide (i = j)) as [->|]; [done|].
    apply Hbelow. lia.
  - intros [= <-]. exists j. split; [lia|]. split; [done|]. split; [done|].
    intros i Hi. lia.
Qed.

(** If the loop reaches its bound, every candidate it tried is taken. *)
Lemma rename_loop_None seen original fuel : forall j : nat,
  (1 ≤ j)%nat ->
  rename_loop fuel seen original (candidate original j) (S j) = None ->
  forall i : nat, (j ≤ i < j + fuel)%nat -> candidate original i ∈ seen.
Proof.
  induction fuel as [|fuel IH]; intros j Hj; simpl; [intros _ i Hi; lia|].
  case_bool_decide as Hin; [|done].
  rewrite candidate_succ by done. intros H i Hi.
  destruct (decide (i = j)) as [->|]; [done|].
  apply (IH (S j)); [lia|done|lia].
Qed.

(** The loop ends within one round more than [seen] has elements: the
    candidates are pairwise distinct, so they cannot all be taken. *)
Lemma rename_loop_total (seen : gset string) original :
  exists name,
    rename_loop (S (size seen)) seen original original 2 = Some name.
Proof.
  destruct (rename_loop (S (size seen)) seen original original 2)
    as [name|] eqn:E; [by eexists|].
  exfalso.
  pose proof (rename_loop_None seen original (S (size seen)) 1
                (le_n 1) E) as Hall.
  set (l := candidate original <$> seq 1 (S (size seen))).
  assert (NoDup l) as Hnd.
  { apply NoDup_fmap_2_strong; [|apply NoDup_seq].
    intros x y [Hx _]%elem_of_seq [Hy _]%elem_of_seq.
    by apply candidate_inj. }
  assert (list_to_set l ⊆ seen) as Hsub.
  { intros x [y [-> Hy]]%elem_of_list_to_set%list_elem_of_fmap.
    apply elem_of_seq in Hy. apply Hall. lia. }
  apply subseteq_size in Hsub.
  rewrite size_list_to_set in Hsub by done.
  unfold l in Hsub. rewrite length_fmap, length_seq in Hsub. lia.
Qed.

(** The outer loop, from any state in which [seen] holds exactly the
    names assigned so far. *)
Lemma columns_loop_spec columns : forall (seen : gset string) acc,
  (forall x, x ∈ seen <-> x ∈ acc) -> NoDup acc ->
  exists out,
    columns_loop columns seen acc = Some (acc ++ out)
    /\ List.length out = List.length columns
    /\ NoDup (acc ++ out)
    /\ forall i col, columns !! i = Some col ->
         exists k : nat, (1 ≤ k)%nat
           /\ out !! i = Some (candidate (sanitize_column_name col) k)
           /\ (candidate (sanitize_column_name col) k ∉ acc ++ take i out)
           /\ (forall j : nat, (1 ≤ j < k)%nat ->
                candidate (sanitize_column_name col) j ∈ acc ++ take i out).
Proof.
  induction columns as [|col rest IH]; intros seen acc Hseen Hnd.
  - exists []. rewrite app_nil_r. split; [done|]. split; [done|].
    split; [done|]. intros i col Hi. by rewrite lookup_nil in Hi.
  - cbn [columns_loop].
    destruct (rename_loop_total seen (sanitize_column_name col))
      as [name Hname].
    rewrite Hname.
    apply (rename_loop_Some _ _ _ 1) in Hname
      as (k & Hk & -> & Hfresh & Hbelow); [|done].
    set (name := candidate (sanitize_column_name col) k) in *.
    destruct (IH ({[name]} ∪ seen) (acc ++ [name])) as (out & Hrun & Hlen & Hnd' & Hpos).
    { intros x. rewrite elem_of_union, elem_of_singleton, elem_of_app,
        list_elem_of_singleton, Hseen. tauto. }
    { apply NoDup_app. split; [done|]. split; [|apply NoDup_singleton].
      intros x Hx ->%list_elem_of_singleton. apply Hfresh. by apply Hseen. }
    exists (name :: out). rewrite <- app_assoc in Hrun, Hnd'.
    split; [exact Hrun|]. split; [simpl; by rewrite Hlen|].
    split; [exact Hnd'|].
    intros [|i] c Hc; simpl in Hc.
    + injection Hc as <-. exists k. split; [done|]. split; [done|].
      rewrite take_0, app_nil_r. split.
      * intros Hin. apply Hfresh. by apply Hseen.
      * intros j Hj. apply Hseen, Hbelow. lia.
    + destruct (Hpos i c Hc) as (k' & Hk' & Hlook & Hnot & Hprev).
      exists k'. split; [done|]. split; [exact Hlook|].
      cbn [take]. rewrite <- app_assoc in Hnot.
      split; [exact Hnot|].
      intros j Hj. specialize (Hprev j Hj).
      by rewrite <- app_assoc in Hprev.
Qed.

Lemma make_columns_unique_spec columns :
  exists out,
    make_columns_unique columns = Some out
    /\ List.length out = List.length columns
    /\ NoDup out
    /\ forall i col, columns !! i = Some col ->
         exists k : nat, (1 ≤ k)%nat
           /\ out !! i = Some (candidate (sanitize_column_name col) k)
           /\ (candidate (sanitize_column_name col) k ∉ take i out)
           /\ (forall j : nat, (1 ≤ j < k)%nat ->
                candidate (sanitize_column_name col) j ∈ take i out).
Proof.
  destruct (columns_loop_spec columns ∅ []) as (out & H).
  - intros x. rewrite elem_of_empty, elem_of_nil. tauto.
  - apply NoDup_nil_2.
  - exists out. exact H.
Qed.

Lemma make_columns_unique_total columns :
  exists out, make_columns_unique columns = Some out
              /\ List.length out = List.length columns /\ NoDup out.
Proof.
  destruct (make_columns_unique_spec columns) as (out & H1 & H2 & H3 & _).
  eauto.
Qed.

End unique.

(** ** The tariff schedule *)

Section tariff.
Import Calendar TariffClassifier.
Local Open Scope Z_scope.

Lemma weekday_range dt : 0 <= weekday dt < 7.
Proof. unfold weekday. apply Z.mod_pos_bound. lia. Qed.

Lemma datetime_ok_clock dt :
  datetime_ok dt = true ->
  0 <= hour dt < 24 /\ 0 <= minute dt < 60 /\ 0 <= second dt < 60.
Proof.
  unfold datetime_ok. intros H.
  rewrite !andb_true_iff, !Z.leb_le, !Z.ltb_lt in H. lia.
Qed.

Lemma time_cmp_key a b :
  time_ok a -> time_ok b -> time_cmp a b = (time_key a ?= time_key b).
Proof.
  unfold time_ok, time_key, time_cmp. intros Ha Hb.
  destruct (Z.compare_spec (t_hour a) (t_hour b));
    [destruct (Z.compare_spec (t_minute a) (t_minute b));
      [destruct (Z.compare_spec (t_second a) (t_second b));
        [destruct (Z.compare_spec (t_microsecond a) (t_microsecond b))|..]
      |..]
    |..];
    symmetry;
    first [ apply Z.compare_eq_iff; lia
          | apply Z.compare_lt_iff; lia
          | apply Z.compare_gt_iff; lia ].
Qed.

Lemma time_le_key a b :
  time_ok a -> time_ok b -> time_le a b = (time_key a <=? time_key b).
Proof.
  intros Ha Hb. unfold time_le, Z.leb. by rewrite time_cmp_key.
Qed.

Lemma time_lt_key a b :
  time_ok a -> time_ok b -> time_lt a b = (time_key a <? time_key b).
Proof.
  intros Ha Hb. unfold time_lt, Z.ltb. by rewrite time_cmp_key.
Qed.

Lemma classify_tariff_schedule dt :
  datetime_ok dt = true ->
  classify_tariff dt = Spec.classify (weekday dt) (Spec.time_of_day dt).
Proof.
  intros Hok. apply datetime_ok_clock in Hok.
  pose proof (weekday_range dt) as Hd.
  assert (time_ok (mk_time (hour dt) (minute dt) 0 0)) as Hcur
    by (unfold time_ok; simpl; lia).
  unfold classify_tariff, _classify_weekday.
  rewrite !time_le_key, !time_lt_key
    by first [exact Hcur | unfold time_ok; simpl; lia].
  unfold Spec.classify, Spec.time_of_day, Spec.hm, time_key.
  cbn [t_hour t_minute t_second t_microsecond].
  generalize dependent (weekday dt). intros d Hd.
  destruct dt as [y mo da h mi s us]. cbn [hour minute second] in *.
  split_tests; reflexivity.
Qed.

End tariff.

(** ** Sequencing *)

Section outcomes.
Context {A B : Type}.

Lemma bind_Ok_inv (m : outcome A) (f : A -> outcome B) (b : B) :
  m ≫= f = Ok b -> exists a, m = Ok a /\ f a = Ok b.
Proof. destruct m as [a|e]; [by exists a|done]. Qed.

Lemma bind_Raise_inv (m : outcome A) (f : A -> outcome B) (e : exn) :
  m ≫= f = Raise e -> m = Raise e \/ exists a, m = Ok a /\ f a = Raise e.
Proof. destruct m as [a|e']; intros H; [right; by exists a|left; by inversion H]. Qed.

End outcomes.

Lemma getitem_Ok {V : Type} (d : gmap string V) key v :
  getitem d key = Ok v <-> d !! key = Some v.
Proof. unfold getitem. destruct (d !! key); split; congruence. Qed.

(** ** Floats of integers *)

Section floats.
Import Float.
Local Open Scope Z_scope.

Lemma bit_length_bound a k :
  0 <= a -> 0 <= k -> a < 2 ^ k -> bit_length a <= k.
Proof.
  intros Ha Hk Hlt. unfold bit_length.
  destruct (Z.eqb_spec a 0) as [->|Hne]; [lia|].
  assert (Z.log2 a < k) by (apply Z.log2_lt_pow2; lia). lia.
Qed.

Lemma bit_length_spec a : 0 <= a -> 0 <= bit_length a /\ a < 2 ^ bit_length a.
Proof.
  intros Ha. unfold bit_length.
  destruct (Z.eqb_spec a 0) as [->|Hne]; [split; [lia|reflexivity]|].
  pose proof (Z.log2_nonneg a).
  split; [lia|]. replace (Z.log2 a + 1) with (Z.succ (Z.log2 a)) by lia.
  apply Z.log2_spec. lia.
Qed.

(** An integer of at most 53 bits is its own float. *)
Lemma of_int_exact n : Z.abs n < 2 ^ 53 -> of_int n = Ok n.
Proof.
  intros Hn. unfold of_int, MANT_DIG.
  pose proof (bit_length_bound (Z.abs n) 53 (Z.abs_nonneg n) ltac:(lia) Hn).
  destruct (Z.leb_spec (bit_length (Z.abs n)) 53); [done|lia].
Qed.

Lemma round_half_even_le n shift : round_half_even n shift <= n / 2 ^ shift + 1.
Proof.
  unfold round_half_even.
  repeat match goal with |- context [if ?b then _ else _] => destruct b end; lia.
Qed.

(** An integer below 2^1023 has a float. *)
Lemma of_int_total n : Z.abs n < 2 ^ 1023 -> exists x, of_int n = Ok x.
Proof.
  intros Hn. unfold of_int, MANT_DIG, MAX_EXP.
  set (a := Z.abs n) in *.
  destruct (Z.leb_spec (bit_length a) 53) as [|Hbits]; [by eexists|].
  assert (0 <= a) as Ha by apply Z.abs_nonneg.
  destruct (bit_length_spec a Ha) as [_ Hlt].
  pose proof (bit_length_bound a 1023 Ha ltac:(lia) Hn) as Hle.
  set (bits := bit_length a) in *.
  assert (a / 2 ^ (bits - 53) < 2 ^ 53) as Hq.
  { apply Z.div_lt_upper_bound; [apply Z.pow_pos_nonneg; lia|].
    rewrite <- Z.pow_add_r by lia. by replace (bits - 53 + 53) with bits by lia. }
  pose proof (round_half_even_le a (bits - 53)) as Hr.
  assert (round_half_even a (bits - 53) * 2 ^ (bits - 53) <= 2 ^ bits) as Hm.
  { replace (2 ^ bits) with (2 ^ 53 * 2 ^ (bits - 53)).
    - apply Z.mul_le_mono_nonneg_r; [apply Z.pow_nonneg; lia|lia].
    - rewrite <- Z.pow_add_r by lia. f_equal. lia. }
  assert (2 ^ bits <= 2 ^ 1023) by (apply Z.pow_le_mono_r; lia).
  assert (2 ^ 1023 < 2 ^ 1024) by (apply Z.pow_lt_mono_r; lia).
  destruct (Z.leb_spec (2 ^ 1024) (round_half_even a (bits - 53) * 2 ^ (bits - 53)));
    [lia|by eexists].
Qed.

End floats.

(** ** Rows of the device library *)

Section rows.

Lemma regs_get_Ok (l : list (string * Z)) name v :
  regs_get l name = Ok v -> (name, v) ∈ l.
Proof.
  induction l as [|[key v'] l IH]; [done|]. cbn [regs_get].
  destruct (String.eqb_spec key name) as [->|Hne].
  - intros [= ->]. apply list_elem_of_here.
  - intros H. by apply list_elem_of_further, IH.
Qed.

Lemma regs_get_Raise (l : list (string * Z)) name e :
  regs_get l name = Raise e -> e = KeyError name /\ name ∉ l.*1.
Proof.
  induction l as [|[key v'] l IH]; cbn [regs_get].
  - intros [= <-]. split; [done|]. apply not_elem_of_nil.
  - destruct (String.eqb_spec key name) as [->|Hne]; [done|].
    intros [-> Hout]%IH. split; [done|].
    cbn. rewrite elem_of_cons. intros [Heq|Hin]; [by apply Hne|by apply Hout].
Qed.

(** A name has a value exactly when it is a key. *)
Lemma regs_get_key (l : list (string * Z)) name :
  (exists v, regs_get l name = Ok v) <-> name ∈ l.*1.
Proof.
  split.
  - intros [v Hv%regs_get_Ok]. apply list_elem_of_fmap. by exists (name, v).
  - intros Hin. destruct (regs_get l name) as [v|e] eqn:Hget; [by exists v|].
    by apply regs_get_Raise in Hget as [_ Hout].
Qed.

(** A difference that ends normally has the names of the left row, in
    order, and under each the difference of the two values. *)
Lemma regs_sub_Ok (a b d : list (string * Z)) :
  regs_sub a b = Ok d ->
  d.*1 = a.*1
  /\ (forall name, name ∈ a.*1 -> name ∈ b.*1)
  /\ forall name va,
       regs_get a name = Ok va ->
       exists vb, regs_get b name = Ok vb /\ regs_get d name = Ok (va - vb)%Z.
Proof.
  revert d. induction a as [|[key v] a IH]; intros d; cbn [regs_sub].
  - intros [= <-]. split; [done|]. split; [|done].
    intros name Hin. by apply elem_of_nil in Hin.
  - intros (v' & Hv' & H)%bind_Ok_inv.
    apply bind_Ok_inv in H as (rest' & Hrest & [= <-]).
    destruct (IH rest' Hrest) as (Hkeys & Hsub & Hget).
    split; [cbn; by rewrite Hkeys|]. split.
    + intros name. cbn. rewrite elem_of_cons. intros [->|Hin]; [|by apply Hsub].
      apply regs_get_key. by exists v'.
    + intros name va. cbn [regs_get].
      destruct (String.eqb_spec key name) as [->|Hne]; [|by apply Hget].
      intros [= ->]. by exists v'.
Qed.

Lemma regs_sub_total (a b : list (string * Z)) :
  (forall name, name ∈ a.*1 -> name ∈ b.*1) ->
  exists d, regs_sub a b = Ok d.
Proof.
  induction a as [|[key v] a IH]; intros Hsub; [by exists []|].
  cbn [regs_sub].
  destruct (proj2 (regs_get_key b key)) as [v' ->];
    [apply Hsub, list_elem_of_here|].
  destruct IH as [d ->];
    [intros name Hin; by apply Hsub, list_elem_of_further|].
  by eexists.
Qed.

(** The quantity of a register in a difference of two rows. *)
Lemma pq_accu_row_sub (a b delta_row : Row) regname accu :
  row_sub a b = Ok delta_row ->
  pq_accu delta_row regname = Ok accu ->
  exists va vb,
    regs_get (regs a) regname = Ok va /\ regs_get (regs b) regname = Ok vb
    /\ value accu = (va - vb)%Z.
Proof.
  unfold row_sub, pq_accu.
  intros (d & Hd & [= <-])%bind_Ok_inv (v & Hv & [= <-])%bind_Ok_inv.
  cbn [regs] in Hv.
  destruct (regs_sub_Ok _ _ _ Hd) as (Hkeys & _ & Hget).
  destruct (proj2 (regs_get_key (regs a) regname)) as [va Hva].
  { rewrite <- Hkeys. apply regs_get_key. by exists v. }
  destruct (Hget regname va Hva) as (vb & Hvb & Hdv).
  exists va, vb. split; [done|]. split; [done|]. cbn. congruence.
Qed.

End rows.

(** ** The reducer *)

Section reducer.
Import Calendar EGaugeService.

Lemma dict_zip_fold_Some (kvs : list (string * string)) :
  forall (m : gmap string string) k v,
  foldl (fun m kv => <[kv.1 := kv.2]> m) m kvs !! k = Some v ->
  m !! k = Some v \/ exists i, kvs !! i = Some (k, v).
Proof.
  induction kvs as [|[k0 v0] kvs IH]; intros m k v; simpl; [by left|].
  intros H. apply IH in H as [H|[i Hi]].
  - destruct (decide (k0 = k)) as [->|Hne].
    + rewrite lookup_insert_eq in H. injection H as ->.
      right. by exists 0%nat.
    + rewrite lookup_insert_ne in H by done. by left.
  - right. by exists (S i).
Qed.

Lemma dict_zip_fold_total (kvs : list (string * string)) :
  forall (m : gmap string string) k,
  is_Some (m !! k) \/ k ∈ kvs.*1 ->
  is_Some (foldl (fun m kv => <[kv.1 := kv.2]> m) m kvs !! k).
Proof.
  induction kvs as [|[k0 v0] kvs IH]; intros m k; simpl.
  - intros [H|H]; [done|]. by apply elem_of_nil in H.
  - intros H. apply IH.
    destruct (decide (k0 = k)) as [->|Hne].
    + left. rewrite lookup_insert_eq. by eexists.
    + rewrite lookup_insert_ne by done.
      destruct H as [H|H]; [by left|].
      apply elem_of_cons in H as [H|H]; [congruence|by right].
Qed.

Lemma dict_zip_lookup keys values k v :
  dict_zip keys values !! k = Some v ->
  exists i, keys !! i = Some k /\ values !! i = Some v.
Proof.
  unfold dict_zip. intros H.
  apply dict_zip_fold_Some in H as [H|[i Hi]].
  - by rewrite lookup_empty in H.
  - exists i. apply lookup_zip_Some in Hi. exact Hi.
Qed.

Lemma dict_zip_total keys values k :
  List.length keys = List.length values -> k ∈ keys ->
  is_Some (dict_zip keys values !! k).
Proof.
  intros Hlen Hk. unfold dict_zip. apply dict_zip_fold_total. right.
  by rewrite fst_zip by lia.
Qed.

(** Distinct keys never share a value when the values are distinct. *)
Lemma dict_zip_inj keys values k k' v :
  NoDup values ->
  dict_zip keys values !! k = Some v ->
  dict_zip keys values !! k' = Some v -> k = k'.
Proof.
  intros Hnd (i & Hki & Hvi)%dict_zip_lookup (j & Hkj & Hvj)%dict_zip_lookup.
  assert (i = j) as -> by (eapply NoDup_lookup; eauto).
  congruence.
Qed.

(** One round of the inner loop. *)
Lemma registers_loop_cons delta_row (mapping : gmap string string)
    regname rest (row : gmap string Val) col v :
  mapping !! regname = Some col -> delta_value delta_row regname = Ok v ->
  registers_loop delta_row mapping (regname :: rest) row
  = registers_loop delta_row mapping rest (<[col := v]> row).
Proof.
  intros Hcol. unfold delta_value. cbn [registers_loop].
  intros (accu & -> & H)%bind_Ok_inv.
  apply bind_Ok_inv in H as (x & Hx & [= <-]).
  cbn [mbind outcome_bind]. unfold getitem. rewrite Hcol.
  cbn [mbind outcome_bind]. by rewrite Hx.
Qed.

Lemma registers_loop_cons_Ok delta_row (mapping : gmap string string)
    regname rest (row row' : gmap string Val) :
  registers_loop delta_row mapping (regname :: rest) row = Ok row' ->
  exists col v,
    mapping !! regname = Some col /\ delta_value delta_row regname = Ok v
    /\ registers_loop delta_row mapping rest (<[col := v]> row) = Ok row'.
Proof.
  cbn [registers_loop]. intros (accu & Haccu & H)%bind_Ok_inv.
  apply bind_Ok_inv in H as (col & Hcol%getitem_Ok & H).
  apply bind_Ok_inv in H as (x & Hx & H).
  exists col, (VFloat x). split; [done|]. split; [|done].
  unfold delta_value. rewrite Haccu. cbn [mbind outcome_bind]. by rewrite Hx.
Qed.

(** The inner loop when it ends normally: every register has a column
    and a value; a key no register is mapped to is left alone, and the
    column only one register is mapped to holds that register's value. *)
Lemma registers_loop_spec delta_row (mapping : gmap string string) registers :
  forall row row' : gmap string Val,
  registers_loop delta_row mapping registers row = Ok row' ->
  (forall r, r ∈ registers ->
     is_Some (mapping !! r) /\ exists v, delta_value delta_row r = Ok v)
  /\ (forall c, (forall r, r ∈ registers -> mapping !! r ≠ Some c) ->
                row' !! c = row !! c)
  /\ (forall r c, r ∈ registers -> mapping !! r = Some c ->
        (forall r', r' ∈ registers -> mapping !! r' = Some c -> r' = r) ->
        exists v, delta_value delta_row r = Ok v /\ row' !! c = Some v).
Proof.
  induction registers as [|regname rest IH]; intros row row'.
  - intros [= <-]. split; [|split; [done|]]; intros r; [|intros c];
      intros Hr; by apply elem_of_nil in Hr.
  - intros (col & v & Hcol & Hv & Hrun)%registers_loop_cons_Ok.
    destruct (IH _ _ Hrun) as (Hall & Hother & Hmine).
    split; [|split].
    + intros r [->|Hr]%elem_of_cons; [|by apply Hall].
      split; [by eexists|by exists v].
    + intros c Hc. rewrite Hother.
      * apply lookup_insert_ne. intros ->.
        by apply (Hc regname); [apply list_elem_of_here|].
      * intros r Hr. by apply Hc, list_elem_of_further.
    + intros r c Hr Hrc Huniq.
      destruct (decide (r ∈ rest)) as [Hin|Hout].
      * apply Hmine; [done|done|].
        intros r' Hr' Hr'c. apply Huniq; [|done]. by apply list_elem_of_further.
      * apply elem_of_cons in Hr as [->|Hr]; [|done].
        assert (c = col) as -> by congruence.
        exists v. split; [done|].
        rewrite Hother; [apply lookup_insert_eq|].
        intros r' Hr' Hr'c. apply Hout.
        rewrite <- (Huniq r'); [done| |done]. by apply list_elem_of_further.
Qed.

(** The inner loop ends normally when every register has a column and a
    value. *)
Lemma registers_loop_total delta_row (mapping : gmap string string) registers :
  forall row : gmap string Val,
  (forall r, r ∈ registers ->
     is_Some (mapping !! r) /\ exists v, delta_value delta_row r = Ok v) ->
  exists row', registers_loop delta_row mapping registers row = Ok row'.
Proof.
  induction registers as [|regname rest IH]; intros row Hall; [by exists row|].
  destruct (Hall regname) as [[col Hcol] [v Hv]]; [apply list_elem_of_here|].
  rewrite (registers_loop_cons _ _ _ _ _ col v Hcol Hv).
  apply IH. intros r Hr. by apply Hall, list_elem_of_further.
Qed.

(** The parts of a round that ends normally. *)
Lemma interval_row_Ok utcoffset a b registers (mapping : gmap string string)
    (rec : gmap string Val) :
  interval_row utcoffset a b registers mapping = Ok rec ->
  exists delta_row stamp dt,
    row_sub a b = Ok delta_row /\ Float.of_int (ts b) = Ok stamp
    /\ fromtimestamp utcoffset stamp = Ok dt
    /\ registers_loop delta_row mapping registers (base_row dt stamp) = Ok rec.
Proof.
  unfold interval_row. intros (delta_row & Hsub & H)%bind_Ok_inv.
  apply bind_Ok_inv in H as (stamp & Hstamp & H).
  apply bind_Ok_inv in H as (dt & Hdt & H).
  by exists delta_row, stamp, dt.
Qed.

Lemma interval_row_parts utcoffset a b registers (mapping : gmap string string)
    delta_row stamp dt :
  row_sub a b = Ok delta_row -> Float.of_int (ts b) = Ok stamp ->
  fromtimestamp utcoffset stamp = Ok dt ->
  interval_row utcoffset a b registers mapping
  = registers_loop delta_row mapping registers (base_row dt stamp).
Proof.
  unfold interval_row. intros Hsub Hstamp Hdt.
  rewrite Hsub. cbn [mbind outcome_bind].
  rewrite Hstamp. cbn [mbind outcome_bind]. by rewrite Hdt.
Qed.

(** The outer loop when it ends normally, from any list of indices. *)
Lemma rows_loop_Ok utcoffset rows registers (mapping : gmap string string) :
  forall indices data out,
  rows_loop utcoffset rows registers mapping indices data = Ok out ->
  exists recs,
    out = data ++ recs
    /\ Forall2 (fun i rec => exists a b,
                  rows !! i = Some a /\ rows !! (i + 1)%nat = Some b
                  /\ interval_row utcoffset a b registers mapping = Ok rec)
               indices recs.
Proof.
  induction indices as [|i rest IH]; intros data out; cbn [rows_loop].
  - intros [= <-]. exists []. by rewrite app_nil_r.
  - destruct (rows !! i) as [a|] eqn:Ha; [|done].
    destruct (rows !! (i + 1)%nat) as [b|] eqn:Hb; [|done].
    intros (rec & Hrec & Hrun)%bind_Ok_inv.
    destruct (IH _ _ Hrun) as (recs & -> & Hall).
    exists (rec :: recs). rewrite <- app_assoc. split; [done|].
    constructor; [|exact Hall]. by exists a, b.
Qed.

Lemma rows_loop_total utcoffset rows registers (mapping : gmap string string) :
  forall indices data,
  (forall i, i ∈ indices -> exists a b rec,
     rows !! i = Some a /\ rows !! (i + 1)%nat = Some b
     /\ interval_row utcoffset a b registers mapping = Ok rec) ->
  exists out, rows_loop utcoffset rows registers mapping indices data = Ok out.
Proof.
  induction indices as [|i rest IH]; intros data Hall; [by exists data|].
  cbn [rows_loop].
  destruct (Hall i) as (a & b & rec & -> & -> & ->); [apply list_elem_of_here|].
  apply IH. intros j Hj. by apply Hall, list_elem_of_further.
Qed.

(** [_process_rows], when it ends normally, has made one row per
    adjacent pair, in order. *)
Lemma process_rows_Ok utcoffset rows registers (mapping : gmap string string)
    data :
  _process_rows utcoffset rows registers mapping = Ok data ->
  List.length data = (List.length rows - 1)%nat
  /\ forall i a b, rows !! i = Some a -> rows !! S i = Some b ->
       exists rec, data !! i = Some rec
                   /\ interval_row utcoffset a b registers mapping = Ok rec.
Proof.
  unfold _process_rows. intros (recs & -> & Hall)%rows_loop_Ok.
  pose proof (Forall2_length _ _ _ Hall) as Hlen.
  rewrite length_seq in Hlen. split; [done|].
  intros i a b Ha Hb.
  assert (i < List.length rows - 1)%nat as Hi.
  { apply lookup_lt_Some in Hb. lia. }
  destruct (Forall2_lookup_l _ _ _ i i Hall)
    as (rec & Hrec & a' & b' & Ha' & Hb' & Hrow).
  { by apply lookup_seq_lt. }
  exists rec. split; [exact Hrec|].
  replace (i + 1)%nat with (S i) in Hb' by lia. congruence.
Qed.

(** It ends normally when every round does. *)
Lemma process_rows_total utcoffset rows registers (mapping : gmap string string) :
  (forall i a b, rows !! i = Some a -> rows !! S i = Some b ->
     exists rec, interval_row utcoffset a b registers mapping = Ok rec) ->
  exists data, _process_rows utcoffset rows registers mapping = Ok data.
Proof.
  intros Hall. unfold _process_rows. apply rows_loop_total.
  intros i [_ Hi]%elem_of_seq.
  destruct (lookup_lt_is_Some_2 rows i) as [a Ha]; [lia|].
  destruct (lookup_lt_is_Some_2 rows (i + 1)) as [b Hb]; [lia|].
  replace (i + 1)%nat with (S i) in * by lia.
  destruct (Hall i a b Ha Hb) as [rec Hrec]. by exists a, b, rec.
Qed.

(** A register that a reading of some pair lacks stops the reducer. *)
Lemma process_rows_missing utcoffset rows registers
    (mapping : gmap string string) i a b reg :
  rows !! i = Some a -> rows !! S i = Some b -> reg ∈ registers ->
  reg ∉ (regs a).*1 \/ reg ∉ (regs b).*1 ->
  exists e, _process_rows utcoffset rows registers mapping = Raise e.
Proof.
  intros Ha Hb Hreg Hmissing.
  destruct (_process_rows utcoffset rows registers mapping) as [data|e] eqn:Hrun;
    [exfalso|by exists e].
  apply process_rows_Ok in Hrun as [_ Hrows].
  destruct (Hrows i a b Ha Hb) as (rec & _ & Hrow).
  apply interval_row_Ok in Hrow as (delta_row & stamp & dt & Hsub & _ & _ & Hloop).
  apply registers_loop_spec in Hloop as [Hall _].
  destruct (Hall reg Hreg) as [_ [v Hv]]. unfold delta_value in Hv.
  apply bind_Ok_inv in Hv as (accu & Haccu & _).
  destruct (pq_accu_row_sub a b delta_row reg accu Hsub Haccu)
    as (va & vb & Hva & Hvb & _).
  destruct Hmissing as [Hout|Hout]; apply Hout, regs_get_key; by eexists.
Qed.

End reducer.

(** ** Local time *)

Section local_time.
Import Calendar.
Local Open Scope Z_scope.

(** The year of a day of the calendar is one of its years. *)
Lemma ord2ymd_year n :
  1 <= n <= 3652059 -> MINYEAR <= (ord2ymd n).1.1 <= MAXYEAR.
Proof.
  intros Hn. unfold ord2ymd, DI400Y, DI100Y, DI4Y, MINYEAR, MAXYEAR.
  cbv zeta.
  set (n0 := n - 1).
  set (n400 := n0 / 146097). set (r400 := n0 mod 146097).
  set (n100 := r400 / 36524). set (r100 := r400 mod 36524).
  set (n4 := r100 / 1461). set (r4 := r100 mod 1461).
  set (n1 := r4 / 365). set (r1 := r4 mod 365).
  assert (n0 = 146097 * n400 + r400 /\ 0 <= r400 < 146097) as [E400 B400]
    by (split; [apply Z.div_mod; lia|apply Z.mod_pos_bound; lia]).
  assert (r400 = 36524 * n100 + r100 /\ 0 <= r100 < 36524) as [E100 B100]
    by (split; [apply Z.div_mod; lia|apply Z.mod_pos_bound; lia]).
  assert (r100 = 1461 * n4 + r4 /\ 0 <= r4 < 1461) as [E4 B4]
    by (split; [apply Z.div_mod; lia|apply Z.mod_pos_bound; lia]).
  assert (r4 = 365 * n1 + r1 /\ 0 <= r1 < 365) as [E1 B1]
    by (split; [apply Z.div_mod; lia|apply Z.mod_pos_bound; lia]).
  clearbody n400 r400 n100 r100 n4 r4 n1 r1. subst n0.
  destruct (Z.eqb_spec n1 4), (Z.eqb_spec n100 4); cbn [orb fst];
    try (cbn; lia).
  match goal with |- context [if ?b then _ else _] => destruct b end;
    cbn [fst]; lia.
Qed.

(** Leap years and the days before a year, on the year written with its
    count of 400-year, 100-year and 4-year cycles and of single years. *)
Lemma is_leap_cycles n400 n100 n4 n1 :
  0 <= n100 <= 3 -> 0 <= n4 <= 24 -> 0 <= n1 <= 3 ->
  is_leap (n400 * 400 + 1 + n100 * 100 + n4 * 4 + n1)
  = (n1 =? 3) && (negb (n4 =? 24) || (n100 =? 3)).
Proof.
  intros H100 H4 H1. unfold is_leap.
  destruct (Z.eqb_spec n1 3), (Z.eqb_spec n4 24), (Z.eqb_spec n100 3);
    cbn [andb orb negb];
    repeat match goal with
           | |- context [(?x =? ?y)] => destruct (Z.eqb_spec x y)
           end; cbn [andb orb negb]; try reflexivity; exfalso;
    Z.div_mod_to_equations; lia.
Qed.

Lemma days_before_year_cycles n400 n100 n4 n1 :
  0 <= n100 <= 3 -> 0 <= n4 <= 24 -> 0 <= n1 <= 3 ->
  days_before_year (n400 * 400 + 1 + n100 * 100 + n4 * 4 + n1)
  = 146097 * n400 + 36524 * n100 + 1461 * n4 + 365 * n1.
Proof.
  intros H100 H4 H1. unfold days_before_year. cbv zeta.
  Z.div_mod_to_equations. lia.
Qed.

(** The ordinal of the date of an ordinal is that ordinal. *)
Lemma ymd2ord_ord2ymd n :
  ymd2ord (ord2ymd n).1.1 (ord2ymd n).1.2 (ord2ymd n).2 = n.
Proof.
  unfold ord2ymd, DI400Y, DI100Y, DI4Y. cbv zeta.
  set (n0 := n - 1).
  set (n400 := n0 / 146097). set (r400 := n0 mod 146097).
  set (n100 := r400 / 36524). set (r100 := r400 mod 36524).
  set (n4 := r100 / 1461). set (r4 := r100 mod 1461).
  set (n1 := r4 / 365). set (r1 := r4 mod 365).
  rewrite Z.shiftr_div_pow2 by lia. change (2 ^ 5) with 32.
  set (m := (r1 + 50) / 32).
  assert (n0 = 146097 * n400 + r400 /\ 0 <= r400 < 146097) as [E400 B400]
    by (split; [apply Z.div_mod; lia|apply Z.mod_pos_bound; lia]).
  assert (r400 = 36524 * n100 + r100 /\ 0 <= r100 < 36524) as [E100 B100]
    by (split; [apply Z.div_mod; lia|apply Z.mod_pos_bound; lia]).
  assert (r100 = 1461 * n4 + r4 /\ 0 <= r4 < 1461) as [E4 B4]
    by (split; [apply Z.div_mod; lia|apply Z.mod_pos_bound; lia]).
  assert (r4 = 365 * n1 + r1 /\ 0 <= r1 < 365) as [E1 B1]
    by (split; [apply Z.div_mod; lia|apply Z.mod_pos_bound; lia]).
  assert (32 * m <= r1 + 50 < 32 * m + 32) as Em.
  { subst m. pose proof (Z.div_mod (r1 + 50) 32 ltac:(lia)).
    pose proof (Z.mod_pos_bound (r1 + 50) 32 ltac:(lia)). lia. }
  clearbody n400 r400 n100 r100 n4 r4 n1 r1 m.
  assert (n = n0 + 1) as Hn by (subst n0; lia). clearbody n0. subst n.
  destruct (Z.eqb_spec n1 4) as [H14|H14];
    [|destruct (Z.eqb_spec n100 4) as [H1004|H1004]]; cbn [orb fst snd].
  - (* the last day of a leap year that does not end a century *)
    replace (n400 * 400 + 1 + n100 * 100 + n4 * 4 + n1 - 1)
      with (n400 * 400 + 1 + n100 * 100 + n4 * 4 + 3) by lia.
    unfold ymd2ord, days_before_month.
    rewrite is_leap_cycles, days_before_year_cycles by lia.
    destruct (Z.eqb_spec n4 24); [exfalso; lia|].
    eval_tables. eval_closed. cbn [andb orb negb]. lia.
  - (* the last day of a year that ends a cycle of 400 *)
    replace (n400 * 400 + 1 + n100 * 100 + n4 * 4 + n1 - 1)
      with (n400 * 400 + 1 + 3 * 100 + 24 * 4 + 3) by lia.
    unfold ymd2ord, days_before_month.
    rewrite is_leap_cycles, days_before_year_cycles by lia.
    eval_tables. eval_closed. cbn [andb orb negb]. lia.
  - assert (0 <= n100 <= 3 /\ 0 <= n4 <= 24 /\ 0 <= n1 <= 3)
      as (H100 & H4 & H1) by lia.
    assert (m = 1 \/ m = 2 \/ m = 3 \/ m = 4 \/ m = 5 \/ m = 6 \/ m = 7
            \/ m = 8 \/ m = 9 \/ m = 10 \/ m = 11 \/ m = 12) as Hm by lia.
    repeat destruct Hm as [-> | Hm]; try subst m; eval_tables; eval_closed;
      (match goal with
       | |- context [(r1 <? ?p)] => destruct (Z.ltb_spec r1 p)
       end);
      cbn [fst snd]; unfold ymd2ord, days_before_month;
      rewrite is_leap_cycles, days_before_year_cycles by lia;
      eval_tables; eval_closed;
      destruct ((n1 =? 3) && (negb (n4 =? 24) || (n100 =? 3)));
      cbn [andb] in *; lia.
Qed.

(** The fields of a civil time. *)
Lemma civil_date utcoffset t :
  (year (civil utcoffset t), month (civil utcoffset t), day (civil utcoffset t))
  = ord2ymd ((t + utcoffset t) / 86400 + 719163).
Proof. unfold civil. cbv zeta. by destruct (ord2ymd _) as [[y m] d]. Qed.

Lemma civil_clock utcoffset t :
  hour (civil utcoffset t) * 3600 + minute (civil utcoffset t) * 60
  + second (civil utcoffset t)
  = (t + utcoffset t) mod 86400.
Proof.
  unfold civil. cbv zeta. destruct (ord2ymd _) as [[y m] d]. cbn.
  Z.div_mod_to_equations. lia.
Qed.

(** The local time in seconds is the instant moved by the offset. *)
Lemma utc_to_seconds_civil utcoffset t :
  utc_to_seconds (civil utcoffset t) = t + utcoffset t + 719163 * 86400.
Proof.
  unfold utc_to_seconds.
  pose proof (civil_date utcoffset t) as Hdate.
  pose proof (civil_clock utcoffset t) as Hclock.
  pose proof (ymd2ord_ord2ymd ((t + utcoffset t) / 86400 + 719163)) as Hord.
  rewrite <- Hdate in Hord. cbn [fst snd] in Hord. rewrite Hord.
  pose proof (Z.div_mod (t + utcoffset t) 86400 ltac:(lia)). lia.
Qed.

Lemma local_Ok utcoffset t dt :
  local utcoffset t = Ok dt ->
  dt = civil utcoffset t /\ MINYEAR <= year dt <= MAXYEAR.
Proof.
  unfold local, localtime.
  destruct (_ && _); [|done]. cbn [mbind outcome_bind].
  destruct (Z.leb_spec MINYEAR (year (civil utcoffset t))); [|done].
  destruct (Z.leb_spec (year (civil utcoffset t)) MAXYEAR); [|done].
  intros [= <-]. done.
Qed.

(** The local time is a date of the module from the first second of
    year 1 to the last of year 9999. *)
Lemma local_total utcoffset t :
  -62135596800 <= t + utcoffset t <= 253402300799 ->
  local utcoffset t = Ok (civil utcoffset t).
Proof.
  intros Ht. unfold local, localtime.
  assert (MINYEAR <= year (civil utcoffset t) <= MAXYEAR) as Hy.
  { pose proof (civil_date utcoffset t) as Hdate.
    pose proof (ord2ymd_year ((t + utcoffset t) / 86400 + 719163)) as Hyear.
    rewrite <- Hdate in Hyear. cbn [fst] in Hyear. apply Hyear.
    Z.div_mod_to_equations. lia. }
  unfold MINYEAR, MAXYEAR in *.
  destruct (Z.leb_spec (- 2 ^ 31) (year (civil utcoffset t) - 1900)); [|lia].
  destruct (Z.ltb_spec (year (civil utcoffset t) - 1900) (2 ^ 31)); [|lia].
  cbn [andb mbind outcome_bind].
  destruct (Z.leb_spec 1 (year (civil utcoffset t))); [|lia].
  destruct (Z.leb_spec (year (civil utcoffset t)) 9999); [|lia].
  reflexivity.
Qed.

(** A timestamp that is converted gives the civil time of the zone, in
    a year of the calendar. *)
Lemma fromtimestamp_Ok utcoffset t dt :
  fromtimestamp utcoffset t = Ok dt ->
  dt = civil utcoffset t /\ MINYEAR <= year dt <= MAXYEAR.
Proof.
  unfold fromtimestamp. destruct (negb _); [done|].
  intros (result & Hresult & H)%bind_Ok_inv.
  apply bind_Ok_inv in H as (probe & _ & H).
  apply local_Ok in Hresult.
  destruct (_ <? 0).
  - apply bind_Ok_inv in H as (_ & _ & [= <-]). exact Hresult.
  - injection H as <-. exact Hresult.
Qed.

(** In a zone whose offset from UTC never exceeds a day, every
    timestamp from the fourth day of year 1 to the day before the last
    of year 9999 is converted. *)
Lemma fromtimestamp_total utcoffset t :
  (forall u, -86400 <= utcoffset u <= 86400) ->
  -62135337600 <= t <= 253402214399 ->
  fromtimestamp utcoffset t = Ok (civil utcoffset t).
Proof.
  intros Hoff Ht. unfold fromtimestamp, max_fold_seconds.
  destruct (Z.leb_spec (- 2 ^ 63) t); [|lia].
  destruct (Z.leb_spec t (2 ^ 63)); [|lia]. cbn [andb negb].
  pose proof (Hoff t). pose proof (Hoff (t - 24 * 3600)).
  rewrite (local_total utcoffset t) by lia. cbn [mbind outcome_bind].
  rewrite (local_total utcoffset (t - 24 * 3600)) by lia.
  cbn [mbind outcome_bind]. rewrite !utc_to_seconds_civil.
  match goal with
  | |- context [(?x <? 0)] => destruct (Z.ltb_spec x 0) as [Hneg|]; [|done]
  end.
  match goal with
  | |- context [local utcoffset ?u] =>
      pose proof (Hoff u); rewrite (local_total utcoffset u) by lia
  end.
  done.
Qed.

End local_time.

(** ** Rounds that end normally *)

Section rounds.
Import Calendar EGaugeService.
Local Open Scope Z_scope.

(** A round ends normally when the second reading has every register of
    the first, the first has the declared registers and each of these has
    a column, the timestamp of the second is one the zone converts, and
    the values fit 64 bits. *)
Lemma interval_row_total utcoffset a b registers (mapping : gmap string string) :
  (forall u, -86400 <= utcoffset u <= 86400) ->
  (forall name, name ∈ (regs a).*1 -> name ∈ (regs b).*1) ->
  (forall reg, reg ∈ registers ->
     reg ∈ (regs a).*1 /\ is_Some (mapping !! reg)) ->
  -62135337600 <= ts b <= 253402214399 ->
  Forall (fun kv => Z.abs kv.2 < 2 ^ 63) (regs a) ->
  Forall (fun kv => Z.abs kv.2 < 2 ^ 63) (regs b) ->
  exists rec, interval_row utcoffset a b registers mapping = Ok rec.
Proof.
  intros Hoff Hsub Hregs Hts Hva Hvb.
  destruct (regs_sub_total (regs a) (regs b) Hsub) as [d Hd].
  assert (row_sub a b = Ok (mk_row (ts a - ts b) d)) as Hdelta
    by (unfold row_sub; by rewrite Hd).
  assert (Float.of_int (ts b) = Ok (ts b)) as Hstamp
    by (apply of_int_exact; lia).
  rewrite (interval_row_parts utcoffset a b registers mapping _ _ _
             Hdelta Hstamp (fromtimestamp_total utcoffset (ts b) Hoff Hts)).
  apply registers_loop_total. intros reg Hreg.
  destruct (Hregs reg Hreg) as [Hin Hcol]. split; [exact Hcol|].
  apply regs_get_key in Hin as [va Hva'].
  destruct (regs_sub_Ok _ _ _ Hd) as (_ & _ & Hget).
  destruct (Hget reg va Hva') as (vb & Hvb' & Hdv).
  unfold delta_value, pq_accu. cbn [regs]. rewrite Hdv.
  cbn [mbind outcome_bind value truth].
  apply regs_get_Ok in Hva', Hvb'.
  pose proof (proj1 (Forall_forall _ _) Hva _ Hva') as Ba.
  pose proof (proj1 (Forall_forall _ _) Hvb _ Hvb') as Bb.
  cbn [snd] in Ba, Bb.
  destruct (of_int_total (va - vb)) as [x ->]; [|by eexists].
  assert (2 ^ 63 + 2 ^ 63 < 2 ^ 1023) by (vm_compute; reflexivity). lia.
Qed.

End rounds.
(** ** Labels without any identifier character *)

Section empty_forms.
Import Str Spec.

Lemma sub_nonword_all_foreign s :
  all (fun c => negb (Char.is_word c)) s = true ->
  all Char.is_us (sub_nonword s) = true.
Proof.
  unfold sub_nonword. induction s as [|c t IH]; simpl; [done|].
  intros [Hc Ht]%andb_true_iff. apply negb_true_iff in Hc.
  rewrite Hc. simpl. auto.
Qed.

Lemma lstrip_all_us s : all Char.is_us s = true -> lstrip s = "".
Proof.
  induction s as [|c t IH]; simpl; [done|].
  intros [Hc Ht]%andb_true_iff. rewrite Hc. auto.
Qed.

Lemma sanitize_column_name_foreign label :
  all (fun c => negb (Char.is_word c))
      (replace "-" "_" (replace "+" "_plus" (lower label))) = true ->
  sanitize_column_name label = "".
Proof.
  intros H. unfold sanitize_column_name, strip.
  rewrite lstrip_all_us; [done|].
  by apply all_sub_underscores, sub_nonword_all_foreign.
Qed.

(** When every label sanitizes to the same form, the names assigned
    are the candidates of that form, in order. *)
Lemma make_columns_unique_same_form form labels out :
  Forall (fun label => sanitize_column_name label = form) labels ->
  make_columns_unique labels = Some out ->
  forall i : nat, (i < List.length labels)%nat ->
                  out !! i = Some (candidate form (S i)).
Proof.
  intros Hall Hrun.
  destruct (make_columns_unique_spec labels)
    as (out' & Hrun' & Hlen & _ & Hpos).
  assert (out' = out) as -> by congruence.
  intros i. induction i as [i IH] using lt_wf_ind. intros Hi.
  destruct (lookup_lt_is_Some_2 labels i Hi) as [label Hlabel].
  destruct (Hpos i label Hlabel) as (k & Hk & Hlook & Hfree & Hbelow).
  rewrite (proj1 (Forall_lookup _ _) Hall i label Hlabel) in *.
  assert (forall j : nat, (1 ≤ j)%nat ->
            candidate form j ∈ take i out <-> (j ≤ i)%nat) as Htaken.
  { intros j Hj. rewrite elem_of_take. split.
    - intros (m & Hm & Hlt). rewrite IH in Hm by lia.
      injection Hm as Hm. apply candidate_inj in Hm; lia.
    - intros Hji. exists (j - 1)%nat. split; [|lia].
      rewrite IH by lia. do 2 f_equal. lia. }
  assert (k = S i) as ->; [|done].
  destruct (decide (k ≤ i)%nat) as [Hle|Hgt].
  - exfalso. apply Hfree. by apply Htaken.
  - destruct (decide (S i < k)%nat) as [Hlt|]; [|lia].
    exfalso. specialize (Hbelow (S i)).
    rewrite Htaken in Hbelow by lia. lia.
Qed.

End empty_forms.

(** ** The orchestrator's mapping and the rows built with it *)

Section orchestrator.
Import Calendar EGaugeService.

Lemma orchestrator_mapping_total registers san :
  make_columns_unique registers = Some san ->
  forall r, r ∈ registers -> is_Some (dict_zip registers san !! r).
Proof.
  intros Hsan r Hr.
  destruct (make_columns_unique_total registers) as (san' & Hsan' & Hlen & _).
  assert (san' = san) as -> by congruence.
  by apply dict_zip_total.
Qed.

Lemma orchestrator_mapping_inj registers san r r' c :
  make_columns_unique registers = Some san ->
  dict_zip registers san !! r = Some c ->
  dict_zip registers san !! r' = Some c -> r = r'.
Proof.
  intros Hsan.
  destruct (make_columns_unique_total registers) as (san' & Hsan' & _ & Hnd).
  assert (san' = san) as -> by congruence.
  by apply dict_zip_inj.
Qed.

Lemma orchestrator_mapping_range registers san r c :
  dict_zip registers san !! r = Some c -> c ∈ san.
Proof.
  intros (i & _ & Hi)%dict_zip_lookup. apply list_elem_of_lookup. eauto.
Qed.


(** When the reducer ends normally and no register's column is one of
    the fixed keys, every record keeps the timestamp of the second
    reading of its pair, as the float made of it, with the date, time and
    tariff of that instant, next to the float of the difference of every
    register. *)
Lemma reducer_deltas utcoffset rows registers san data :
  make_columns_unique registers = Some san ->
  Forall (fun key => key ∉ san) fixed_keys ->
  _process_rows utcoffset rows registers (dict_zip registers san) = Ok data ->
  List.length data = (List.length rows - 1)%nat
  /\ forall i a b, rows !! i = Some a -> rows !! S i = Some b ->
       exists (rec : gmap string Val) stamp dt,
         data !! i = Some rec
         /\ Float.of_int (ts b) = Ok stamp
         /\ fromtimestamp utcoffset stamp = Ok dt
         /\ rec !! "timestamp" = Some (VInt stamp)
         /\ rec !! "date" = Some (VStr (strftime_date dt))
         /\ rec !! "time" = Some (VStr (strftime_time dt))
         /\ rec !! "tariff"
            = Some (VStr (tariff_str (TariffClassifier.classify_tariff dt)))
         /\ (forall reg col, reg ∈ registers ->
               dict_zip registers san !! reg = Some col ->
               exists va vb x,
                 regs_get (regs a) reg = Ok va /\ regs_get (regs b) reg = Ok vb
                 /\ Float.of_int (va - vb) = Ok x
                 /\ rec !! col = Some (VFloat x)).
Proof.
  intros Hsan Hfixed [Hlen Hrows]%process_rows_Ok. split; [exact Hlen|].
  intros i a b Ha Hb.
  destruct (Hrows i a b Ha Hb) as (rec & Hrec & Hrow).
  apply interval_row_Ok in Hrow
    as (delta_row & stamp & dt & Hsub & Hstamp & Hdt & Hloop).
  apply registers_loop_spec in Hloop as (Hall & Hother & Hmine).
  exists rec, stamp, dt. split; [exact Hrec|].
  split; [exact Hstamp|]. split; [exact Hdt|].
  assert (forall key, key ∈ fixed_keys ->
            rec !! key = base_row dt stamp !! key) as Hkeys.
  { intros key Hkey. apply Hother. intros r _ Hr.
    apply (proj1 (Forall_forall _ _) Hfixed key Hkey).
    by eapply orchestrator_mapping_range. }
  unfold fixed_keys in Hkeys.
  split; [rewrite Hkeys by (rewrite !elem_of_cons; tauto); done|].
  split; [rewrite Hkeys by (rewrite !elem_of_cons; tauto); done|].
  split; [rewrite Hkeys by (rewrite !elem_of_cons; tauto); done|].
  split; [rewrite Hkeys by (rewrite !elem_of_cons; tauto); done|].
  intros reg col Hreg Hcol.
  destruct (Hmine reg col Hreg Hcol) as (v & Hv & Hlook).
  { intros r' _ Hr'. by apply (orchestrator_mapping_inj registers san r' reg col). }
  unfold delta_value in Hv.
  apply bind_Ok_inv in Hv as (accu & Haccu & Hv).
  apply bind_Ok_inv in Hv as (x & Hx & [= <-]).
  destruct (pq_accu_row_sub a b delta_row reg accu Hsub Haccu)
    as (va & vb & Hva & Hvb & Hval).
  exists va, vb, x. unfold truth in Hx. rewrite Hval in Hx. done.
Qed.

End orchestrator.
(** * The claims *)

Section claims.
  Import Calendar TariffClassifier EGaugeService.

(** C1. On the readings [{ts:200,{A:50}}, {ts:100,{A:30}}] the extraction
    yields one record, with timestamp 100, the date and time of that
    instant, and 50 - 30 = 20 in the column of A.  On the same readings of
    a register labelled "Time" the column of the register is the key
    "time" of the record itself: the record's time is then the delta 20.0
    and not the time derived from the timestamp 100. *)
Theorem reducer_fixed_key_collision :
  match extract_data (Sample.device (Sample.readings "A") ["A"] 1000)
                     "device" 0 300 1 with
  | Some (Success columns sanitized_columns _ [rec] total) =>
      sanitized_columns = ["a"] /\ total = 1%nat
      /\ rec !! "timestamp" = Some (VInt 100)
      /\ rec !! "date" = Some (VStr "1970-01-01")
      /\ rec !! "time" = Some (VStr "00:01:40")
      /\ rec !! "a" = Some (VFloat 20)
  | _ => False
  end
  /\
  match extract_data (Sample.device (Sample.readings "Time") ["Time"] 1000)
                     "device" 0 300 1 with
  | Some (Success columns sanitized_columns _ [rec] total) =>
      sanitized_columns = ["time"] /\ total = 1%nat
      /\ rec !! "timestamp" = Some (VInt 100)
      /\ fromtimestamp Sample.utc 100 = Ok (mk_datetime 1970 1 1 0 1 40 0)
      /\ strftime_time (mk_datetime 1970 1 1 0 1 40 0) = "00:01:40"
      /\ rec !! "time" = Some (VFloat 20)
  | _ => False
  end.
Proof. vm_compute. repeat split; reflexivity. Qed.

(** C2. The classifier follows the weekly schedule: Base on Saturday and
    Sunday whatever the time; from Monday to Friday Punta (peak) in
    [18:00, 22:00), Intermedio (intermediate) in [06:00, 10:00) and in
    [22:00, 23:59:59], Base at every other time.  In particular, on a
    Thursday 08:00 and 23:00 are Intermedio, 12:00 is Base and 19:00 is
    Punta; Saturday 12:00 and Sunday 19:00 are Base. *)
Theorem tariff_schedule (dt : datetime) :
  datetime_ok dt = true ->
  classify_tariff dt = Spec.classify (weekday dt) (Spec.time_of_day dt)
  /\ (weekday dt = 5 \/ weekday dt = 6 -> classify_tariff dt = Base)%Z
  /\ (weekday dt = 3 -> minute dt = 0 ->
        (hour dt = 8 -> classify_tariff dt = Intermedio)
        /\ (hour dt = 12 -> classify_tariff dt = Base)
        /\ (hour dt = 19 -> classify_tariff dt = Punta)
        /\ (hour dt = 23 -> classify_tariff dt = Intermedio))%Z
  /\ classify_tariff (mk_datetime 2025 10 30 8 0 0 0) = Intermedio
  /\ classify_tariff (mk_datetime 2025 10 30 12 0 0 0) = Base
  /\ classify_tariff (mk_datetime 2025 10 30 19 0 0 0) = Punta
  /\ classify_tariff (mk_datetime 2025 10 30 23 0 0 0) = Intermedio
  /\ classify_tariff (mk_datetime 2025 11 1 12 0 0 0) = Base
  /\ classify_tariff (mk_datetime 2025 11 2 19 0 0 0) = Base.
Proof.
  intros Hok. pose proof (classify_tariff_schedule dt Hok) as Hs.
  pose proof (datetime_ok_clock dt Hok) as Hc.
  split; [exact Hs|]. split; [|split].
  - intros [H|H]; rewrite Hs, H; reflexivity.
  - intros Hd Hm. rewrite Hs, Hd.
    unfold Spec.classify, Spec.time_of_day, Spec.hm. rewrite Hm.
    repeat split; intros ->; cbn [Z.eqb orb]; split_tests; reflexivity.
  - repeat split; reflexivity.
Qed.

Lemma tariff_schedule_witness :
  datetime_ok (mk_datetime 2025 10 30 23 59 59 0) = true
  /\ classify_tariff (mk_datetime 2025 10 30 23 59 59 0)
     = Spec.classify 3 86399.
Proof.
  split; [reflexivity|].
  exact (proj1 (tariff_schedule (mk_datetime 2025 10 30 23 59 59 0) eq_refl)).
Defined.

(** C10. Two timestamps with the same weekday, hour and minute get the
    same tariff: seconds and microseconds play no part. *)
Theorem classify_tariff_ignores_seconds (dt1 dt2 : datetime) :
  weekday dt1 = weekday dt2 -> hour dt1 = hour dt2 -> minute dt1 = minute dt2 ->
  classify_tariff dt1 = classify_tariff dt2.
Proof.
  intros Hd Hh Hm. unfold classify_tariff. by rewrite Hd, Hh, Hm.
Qed.

Lemma classify_tariff_ignores_seconds_witness :
  classify_tariff (mk_datetime 2025 10 30 23 59 59 999999)
  = classify_tariff (mk_datetime 2025 10 30 23 59 0 0).
Proof.
  apply classify_tariff_ignores_seconds; reflexivity.
Defined.

(** C3. [make_columns_unique] returns, for every list of labels, a list
    of the same length without duplicates.  The name at position [i] is
    the first of the candidates of the label's sanitized form -- the form
    itself, then the form with [_2], [_3], ... appended -- that is not
    among the names assigned at the positions before [i].  In particular
    ["Andrea (Delta)", "Andrea (Delta)", "Inv 6-8+"] gives
    ["andrea_delta", "andrea_delta_2", "inv_6_8_plus"]. *)
Theorem make_columns_unique_correct (columns : list string) :
  (exists out,
     make_columns_unique columns = Some out
     /\ List.length out = List.length columns
     /\ NoDup out
     /\ forall i col, columns !! i = Some col ->
          exists k : nat, (1 ≤ k)%nat
            /\ out !! i = Some (Spec.candidate (sanitize_column_name col) k)
            /\ (Spec.candidate (sanitize_column_name col) k ∉ take i out)
            /\ (forall j : nat, (1 ≤ j < k)%nat ->
                  Spec.candidate (sanitize_column_name col) j ∈ take i out))
  /\ (forall form, Spec.candidate form 1 = form
                   /\ Spec.candidate form 2 = form +:+ "_2"
                   /\ Spec.candidate form 3 = form +:+ "_3")
  /\ make_columns_unique ["Andrea (Delta)"; "Andrea (Delta)"; "Inv 6-8+"]
     = Some ["andrea_delta"; "andrea_delta_2"; "inv_6_8_plus"].
Proof.
  split; [apply make_columns_unique_spec|].
  split; [intros form; repeat split; reflexivity|].
  vm_compute. reflexivity.
Qed.

(** C4, as the code has it.  A successful extraction returns as [columns]
    the three headers Date, Time, Timestamp followed by the raw register
    labels in their order, and as [sanitized_columns] the unique
    identifiers of the registers in that order: [columns] is three entries
    longer, and the register at position [i] of the declared list is at
    position [3 + i] of [columns] and has its identifier at position [i]
    of [sanitized_columns].  The mapping is the zip of the two register
    lists, the records are those of the reducer, one per adjacent pair of
    readings, and the total is their number. *)
Theorem extract_data_success_fields w url start_date end_date delta_hours
    columns sanitized_columns register_mapping data total_records :
  extract_data w url start_date end_date delta_hours
  = Some (Success columns sanitized_columns register_mapping data total_records) ->
  exists rows registers,
    register_query w url (requested w start_date end_date delta_hours)
    = Ok (rows, registers)
    /\ columns = ["Date"; "Time"; "Timestamp"] ++ registers
    /\ make_columns_unique registers = Some sanitized_columns
    /\ List.length sanitized_columns = List.length registers
    /\ List.length columns = (3 + List.length sanitized_columns)%nat
    /\ NoDup sanitized_columns
    /\ (forall i : nat, columns !! (3 + i)%nat = registers !! i)
    /\ register_mapping = dict_zip registers sanitized_columns
    /\ _process_rows (utcoffset w) rows registers register_mapping = Ok data
    /\ List.length data = (List.length rows - 1)%nat
    /\ total_records = List.length data.
Proof.
  unfold extract_data, requested. intros H.
  destruct (device_open w url) as [u|e]; [|done].
  destruct (register_query w url _) as [[rows registers]|e]; [|done].
  exists rows, registers. split; [done|].
  destruct (List.length rows <? 2)%nat; [done|].
  destruct (make_columns_unique_total registers)
    as (san & Hsan & Hlen & Hnd).
  rewrite Hsan in H. cbn [mbind option_bind] in H.
  destruct (_process_rows (utcoffset w) rows registers (dict_zip registers san))
    as [data'|e] eqn:Hrun; [|done].
  injection H as <- <- <- <- <-.
  apply process_rows_Ok in Hrun as Hcount. destruct Hcount as [Hcount _].
  repeat split; try done.
  simpl. by rewrite Hlen.
Qed.

Lemma extract_data_success_fields_witness :
  exists rows registers,
    register_query Sample.device_A "device" (requested Sample.device_A 0 300 1)
    = Ok (rows, registers)
    /\ ["Date"; "Time"; "Timestamp"; "A"] = ["Date"; "Time"; "Timestamp"] ++ registers
    /\ make_columns_unique registers = Some ["a"].
Proof.
  assert (extract_data Sample.device_A "device" 0 300 1
          = Some (Success ["Date"; "Time"; "Timestamp"; "A"] ["a"]
                    (dict_zip ["A"] ["a"]) Sample.records_A 1)) as H
    by (vm_compute; reflexivity).
  destruct (extract_data_success_fields _ _ _ _ _ _ _ _ _ _ H)
    as (rows & registers & H1 & H2 & H3 & _).
  exists rows, registers. split; [exact H1|]. split; [exact H2|exact H3].
Defined.

(** C4 as stated fails: the extraction of the example device succeeds
    with the single register A, yet [columns] is not the list of register
    labels and is not as long as [sanitized_columns]. *)
Lemma extract_data_columns_counterexample :
  match extract_data Sample.device_A "device" 0 300 1 with
  | Some (Success columns sanitized_columns _ _ _) =>
      columns = ["Date"; "Time"; "Timestamp"; "A"]
      /\ columns <> ["A"]
      /\ sanitized_columns = ["a"]
      /\ List.length columns <> List.length sanitized_columns
  | _ => False
  end.
Proof. vm_compute. repeat split; discriminate. Qed.

(** C5.  The reducer has no tolerance for a missing register.  For
    every adjacent pair of readings and every declared register, when
    either reading of the pair lacks the register the reducer raises and
    makes no record at all: the value 0.0 of the conditional in the loop
    is never stored, since the difference of the rows and [pq_accu] raise
    before it is reached.  On the readings [{ts:200,{A:50}}, {ts:100,{}}]
    and on [{ts:200,{}}, {ts:100,{A:30}}] the reducer raises
    [KeyError('A')], and the extraction of the former returns the failure
    "Unexpected error: 'A'". *)
Theorem missing_register_raises utcoffset (rows : list Row)
    (registers : list string) (register_mapping : gmap string string)
    (i : nat) (a b : Row) (reg : string) :
  rows !! i = Some a -> rows !! S i = Some b ->
  reg ∈ registers ->
  reg ∉ (regs a).*1 \/ reg ∉ (regs b).*1 ->
  (exists e, _process_rows utcoffset rows registers register_mapping = Raise e)
  /\ _process_rows Sample.utc Sample.gappy ["A"] (dict_zip ["A"] ["a"])
     = Raise (KeyError "A")
  /\ _process_rows Sample.utc Sample.gappy_newer ["A"] (dict_zip ["A"] ["a"])
     = Raise (KeyError "A")
  /\ extract_data (Sample.device Sample.gappy ["A"] 1000) "device" 0 300 1
     = Some (Failure "Unexpected error: 'A'").
Proof.
  intros Ha Hb Hreg Hmissing.
  split; [exact (process_rows_missing utcoffset rows registers register_mapping
                  i a b reg Ha Hb Hreg Hmissing)|].
  repeat split; vm_compute; reflexivity.
Qed.

Lemma missing_register_raises_witness :
  exists e, _process_rows Sample.utc Sample.gappy ["A"] (dict_zip ["A"] ["a"])
            = Raise e.
Proof.
  refine (proj1 (missing_register_raises Sample.utc Sample.gappy ["A"]
                   (dict_zip ["A"] ["a"]) 0
                   (mk_row 200 [("A", 50%Z)]) (mk_row 100 []) "A" _ _ _ _)).
  - reflexivity.
  - reflexivity.
  - apply list_elem_of_here.
  - right. apply not_elem_of_nil.
Defined.

(** C6. When the device answers with fewer than two readings, the
    extraction returns a failure value, not an exception; its message
    contains the number of readings received, and it carries no record. *)
Theorem insufficient_data_result w url start_date end_date delta_hours u
    (rows : list Row) (registers : list string) :
  device_open w url = Ok u ->
  register_query w url (requested w start_date end_date delta_hours)
  = Ok (rows, registers) ->
  (List.length rows < 2)%nat ->
  exists r,
    extract_data w url start_date end_date delta_hours = Some r
    /\ r = Failure (not_enough_data (List.length rows))
    /\ records_of r = []
    /\ not_enough_data (List.length rows)
       = "Not enough data in the specified range. Received only "
         +:+ pretty (List.length rows)
         +:+ " rows. The device may not have data for this period.".
Proof.
  intros Hopen Hquery Hlen. eexists. split; [|split; [reflexivity|]].
  - unfold extract_data. unfold requested in Hquery.
    rewrite Hopen, Hquery.
    destruct (Nat.ltb_spec (List.length rows) 2); [reflexivity|lia].
  - split; reflexivity.
Qed.

Lemma insufficient_data_result_witness :
  exists r,
    extract_data (Sample.device Sample.single ["A"] 1000) "device" 0 300 1
    = Some r
    /\ r = Failure "Not enough data in the specified range. Received only 1 rows. The device may not have data for this period.".
Proof.
  destruct (insufficient_data_result
              (Sample.device Sample.single ["A"] 1000) "device" 0 300 1 tt
              Sample.single ["A"] eq_refl eq_refl (le_n 2))
    as (r & Hr & Hm & _).
  exists r. split; [exact Hr|exact Hm].
Defined.

(** C7 as stated fails.  The table sanitizer maps [+] to a plain
    underscore, not to [_plus], and names an empty result [data_client],
    not [data_]. *)
Lemma sanitizers_contract_counterexample :
  sanitize_table_name "Inv 6-8+" = "inv_6_8"
  /\ Spec.sanitizeIdentifier true "Inv 6-8+" = "inv_6_8_plus"
  /\ sanitize_table_name "()" = "data_client"
  /\ Spec.sanitizeIdentifier true "()" = "data_".
Proof. repeat split; reflexivity. Qed.

(** C7, as the code has it.  The table sanitizer lower-cases the name,
    maps [-] to [_], replaces every run of characters outside [a-z0-9_]
    with one underscore ([+] is such a character: there is no [_plus]
    mapping for tables), collapses repeated underscores and trims
    underscores at both ends; it then prefixes [data_] to a result that
    starts with a digit and returns [data_client] for an empty result: a
    table identifier is never empty and never starts with a digit.  For a
    label whose result is not empty, the column sanitizer lower-cases the
    label, maps [+] to [_plus] and [-] to [_], replaces runs, collapses
    and trims in the same way, and returns the result without a prefix,
    as the stated contract has it. *)
Theorem sanitizers_contract (label : string) :
  sanitize_table_name label = Spec.table_identifier label
  /\ Str.is_empty (sanitize_table_name label) = false
  /\ Str.starts_with Char.isdigit (sanitize_table_name label) = false
  /\ Shape.clean (sanitize_table_name label)
  /\ (Str.is_empty (Spec.normalize label) = false ->
        sanitize_column_name label = Spec.normalize label
        /\ sanitize_column_name label = Spec.sanitizeIdentifier false label
        /\ Shape.clean (sanitize_column_name label)).
Proof.
  pose proof (sanitize_table_name_shape label) as (Hc & He & Hd).
  split; [apply sanitize_table_name_identifier|].
  split; [exact He|]. split; [exact Hd|]. split; [exact Hc|].
  intros Hne. split; [apply sanitize_column_name_normalize|].
  split; [|apply clean_sanitize_column_name].
  unfold Spec.sanitizeIdentifier. rewrite Hne. cbn [orb andb].
  apply sanitize_column_name_normalize.
Qed.

(** C8. Both sanitizers are idempotent: sanitizing a sanitized
    identifier gives it back. *)
Theorem sanitizers_idempotent (x : string) :
  sanitize_column_name (sanitize_column_name x) = sanitize_column_name x
  /\ sanitize_table_name (sanitize_table_name x) = sanitize_table_name x.
Proof.
  split.
  - apply sanitize_column_name_clean, clean_sanitize_column_name.
  - pose proof (sanitize_table_name_shape x) as (Hc & He & Hd).
    by apply sanitize_table_name_clean.
Qed.

(** C9. A label that, once lower-cased and with [+] and [-] substituted,
    has no character of [a-z0-9_] is sanitized to the empty string by the
    column sanitizer, with no prefix or fallback.  A list of such labels
    is made unique as the empty string, then [_2], [_3], and so on: the
    name at position [i] is the candidate number [i + 1] of the empty
    form.  For example "()", "***", "()" become "", "_2", "_3". *)
Theorem foreign_labels_empty_identifier (labels : list string) :
  Forall (fun label =>
            Str.all (fun c => negb (Char.is_word c))
              (Str.replace "-" "_" (Str.replace "+" "_plus" (Str.lower label)))
            = true) labels ->
  Forall (fun label => sanitize_column_name label = "") labels
  /\ (exists out,
        make_columns_unique labels = Some out
        /\ List.length out = List.length labels
        /\ forall i : nat, (i < List.length labels)%nat ->
             out !! i = Some (Spec.candidate "" (S i)))
  /\ Spec.candidate "" 1 = "" /\ Spec.candidate "" 2 = "_2"
  /\ Spec.candidate "" 3 = "_3"
  /\ make_columns_unique ["()"; "***"; "()"] = Some [""; "_2"; "_3"].
Proof.
  intros Hall.
  assert (Forall (fun label => sanitize_column_name label = "") labels) as He.
  { eapply Forall_impl; [exact Hall|].
    intros label. apply sanitize_column_name_foreign. }
  split; [exact He|]. split.
  - destruct (make_columns_unique_total labels) as (out & Hout & Hlen & _).
    exists out. split; [exact Hout|]. split; [exact Hlen|].
    by apply make_columns_unique_same_form.
  - repeat split; vm_compute; reflexivity.
Qed.

Lemma foreign_labels_empty_identifier_witness :
  Forall (fun label => sanitize_column_name label = "") ["()"; "***"; "()"].
Proof.
  apply (foreign_labels_empty_identifier ["()"; "***"; "()"]).
  repeat constructor.
Defined.
End claims.
(** * Further properties of the code *)

(** ** Names assigned to labels *)

Section names.
Import Str Spec.

(** X1. Labels whose sanitized forms are pairwise distinct are only
    sanitized: no suffix is added to any of them. *)
Theorem make_columns_unique_distinct_forms (labels : list string) :
  NoDup (sanitize_column_name <$> labels) ->
  make_columns_unique labels = Some (sanitize_column_name <$> labels).
Proof.
  intros Hnd.
  destruct (make_columns_unique_spec labels) as (out & Hrun & Hlen & _ & Hpos).
  rewrite Hrun. f_equal.
  assert (forall i label, labels !! i = Some label ->
            out !! i = Some (sanitize_column_name label)) as Hout.
  { intros i. induction i as [i IH] using lt_wf_ind. intros label Hlabel.
    destruct (Hpos i label Hlabel) as (k & Hk & Hlook & _ & Hbelow).
    destruct (decide (k = 1%nat)) as [->|Hne]; [exact Hlook|].
    exfalso. specialize (Hbelow 1%nat ltac:(lia)).
    change (candidate (sanitize_column_name label) 1)
      with (sanitize_column_name label) in Hbelow.
    apply elem_of_take in Hbelow as (j & Hj & Hlt).
    destruct (lookup_lt_is_Some_2 labels j) as [label' Hlabel'].
    { apply lookup_lt_Some in Hlabel. lia. }
    rewrite (IH j Hlt label' Hlabel') in Hj. injection Hj as Hj.
    assert (j = i); [|lia].
    eapply NoDup_lookup; [exact Hnd| |].
    - rewrite list_lookup_fmap, Hlabel'. simpl. by rewrite Hj.
    - by rewrite list_lookup_fmap, Hlabel. }
  apply list_eq. intros i. rewrite list_lookup_fmap.
  destruct (labels !! i) as [label|] eqn:Hlabel; simpl.
  - by apply Hout.
  - apply lookup_ge_None. apply lookup_ge_None in Hlabel. lia.
Qed.

Lemma make_columns_unique_distinct_forms_witness :
  make_columns_unique ["Grid"; "Solar+"; "Inv 6-8+"]
  = Some (sanitize_column_name <$> ["Grid"; "Solar+"; "Inv 6-8+"]).
Proof.
  apply make_columns_unique_distinct_forms.
  apply (bool_decide_unpack _). vm_compute. exact I.
Defined.

(** The state of the outer loop after a run of labels is the state the
    loop is in when it goes on with further labels. *)
Lemma columns_loop_app l1 l2 : forall (seen : gset string) acc acc',
  (forall x, x ∈ seen <-> x ∈ acc) ->
  columns_loop l1 seen acc = Some acc' ->
  columns_loop (l1 ++ l2) seen acc = columns_loop l2 (list_to_set acc') acc'.
Proof.
  induction l1 as [|col rest IH]; intros seen acc acc' Hseen.
  - cbn [columns_loop app]. intros [= <-]. f_equal.
    apply set_eq. intros x. by rewrite elem_of_list_to_set.
  - cbn [columns_loop app].
    destruct (rename_loop _ seen _ _ 2) as [name|]; [|done].
    apply IH. intros x.
    rewrite elem_of_union, elem_of_singleton, elem_of_app,
      list_elem_of_singleton, Hseen. tauto.
Qed.

(** X2. Appending labels never renames the earlier ones: the names of a
    list of labels are a prefix of the names of any extension of it. *)
Theorem make_columns_unique_app (l1 l2 : list string) :
  exists out1 out2,
    make_columns_unique l1 = Some out1
    /\ make_columns_unique (l1 ++ l2) = Some (out1 ++ out2)
    /\ List.length out1 = List.length l1
    /\ List.length out2 = List.length l2.
Proof.
  destruct (make_columns_unique_spec l1) as (out1 & Hrun1 & Hlen1 & Hnd1 & _).
  destruct (columns_loop_spec l2 (list_to_set out1) out1)
    as (out2 & Hrun2 & Hlen2 & _).
  { intros x. by rewrite elem_of_list_to_set. }
  { exact Hnd1. }
  exists out1, out2. split; [exact Hrun1|]. split; [|done].
  unfold make_columns_unique in *.
  rewrite (columns_loop_app l1 l2 ∅ [] out1); [exact Hrun2| |exact Hrun1].
  intros x. rewrite elem_of_empty, elem_of_nil. tauto.
Qed.

Lemma lower_plus c : Ascii.eqb (Char.lower c) "+" = Ascii.eqb c "+".
Proof. ascii_cases c; vm_compute; reflexivity. Qed.

Lemma replace_plus_lower name :
  all (fun c => negb (Ascii.eqb c "+")) name = true ->
  replace "+" "_plus" (lower name) = lower name.
Proof.
  intros H. apply replace_absent. unfold lower.
  induction name as [|c t IH]; simpl in *; [done|].
  apply andb_true_iff in H as [Hc Ht]. by rewrite lower_plus, Hc, IH.
Qed.

(** X3. For a name without [+], the table sanitizer gives what the
    column sanitizer gives, except that it prefixes [data_] to a leading
    digit and turns the empty identifier into [data_client]. *)
Theorem sanitize_table_name_of_column (name : string) :
  all (fun c => negb (Ascii.eqb c "+")) name = true ->
  sanitize_table_name name
  = (let column := sanitize_column_name name in
     if is_empty column then "data_client"
     else if starts_with Char.isdigit column then "data_" +:+ column
     else column).
Proof.
  intros H. rewrite sanitize_table_name_identifier.
  unfold table_identifier, sanitize_column_name.
  by rewrite replace_plus_lower, sub_underscores_replace_runs.
Qed.

Lemma sanitize_table_name_of_column_witness :
  sanitize_table_name "3 Fases - Planta"
  = "data_" +:+ sanitize_column_name "3 Fases - Planta".
Proof.
  exact (sanitize_table_name_of_column "3 Fases - Planta" eq_refl).
Defined.

End names.


(** ** Successful extractions *)

Section extraction.
Import Calendar EGaugeService.

(** X4. The extraction succeeds, with one record per adjacent pair of
    readings, when the device opens and answers with at least two
    readings, every reading carries the same registers and the declared
    ones are among them, the values fit 64 bits, the offset of the zone
    never exceeds a day, and the timestamps lie between the fourth day of
    year 1 and the day before the last of year 9999. *)
Theorem extract_data_succeeds w url start_date end_date delta_hours u
    (rows : list Row) (registers names : list string) :
  device_open w url = Ok u ->
  register_query w url (requested w start_date end_date delta_hours)
  = Ok (rows, registers) ->
  (2 ≤ List.length rows)%nat ->
  (forall t, -86400 <= utcoffset w t <= 86400)%Z ->
  (forall reg, reg ∈ registers -> reg ∈ names) ->
  Forall (fun row =>
            (regs row).*1 = names
            /\ (-62135337600 <= ts row <= 253402214399)%Z
            /\ Forall (fun kv => (Z.abs kv.2 < 2 ^ 63)%Z) (regs row)) rows ->
  exists sanitized_columns data,
    extract_data w url start_date end_date delta_hours
    = Some (Success (["Date"; "Time"; "Timestamp"] ++ registers)
              sanitized_columns (dict_zip registers sanitized_columns)
              data (List.length rows - 1))
    /\ List.length data = (List.length rows - 1)%nat.
Proof.
  intros Hopen Hquery Hlen Hoff Hnames Hrows. unfold requested in Hquery.
  destruct (make_columns_unique_total registers) as (san & Hsan & _).
  destruct (process_rows_total (utcoffset w) rows registers
              (dict_zip registers san)) as [data Hrun].
  { intros i a b Ha Hb.
    destruct (proj1 (Forall_lookup _ _) Hrows i a Ha) as (Hka & _ & Hva).
    destruct (proj1 (Forall_lookup _ _) Hrows (S i) b Hb) as (Hkb & Htb & Hvb).
    apply interval_row_total; try done.
    - intros name. by rewrite Hka, Hkb.
    - intros reg Hreg. split; [rewrite Hka; by apply Hnames|].
      by apply orchestrator_mapping_total. }
  pose proof (process_rows_Ok _ _ _ _ _ Hrun) as [Hcount _].
  exists san, data. split; [|exact Hcount].
  unfold extract_data. rewrite Hopen, Hquery.
  destruct (Nat.ltb_spec (List.length rows) 2) as [Hlt|_]; [lia|].
  rewrite Hsan. cbn [mbind option_bind]. by rewrite Hrun, Hcount.
Qed.

Lemma extract_data_succeeds_witness :
  exists sanitized_columns data,
    extract_data Sample.device_A "device" 0 300 1
    = Some (Success ["Date"; "Time"; "Timestamp"; "A"]
              sanitized_columns (dict_zip ["A"] sanitized_columns) data 1)
    /\ List.length data = 1%nat.
Proof.
  refine (extract_data_succeeds Sample.device_A "device" 0 300 1 tt
            (Sample.readings "A") ["A"] ["A"] eq_refl eq_refl (le_n 2) _ _ _).
  - intros t. cbn. lia.
  - done.
  - repeat constructor; cbn; lia.
Defined.

(** X5. The register mapping of a successful extraction gives every
    declared register a column among [sanitized_columns], gives two
    different registers different columns, and has no other key. *)
Theorem extract_data_mapping_one_to_one w url start_date end_date delta_hours
    columns sanitized_columns (register_mapping : gmap string string)
    data total_records :
  extract_data w url start_date end_date delta_hours
  = Some (Success columns sanitized_columns register_mapping data total_records) ->
  exists registers,
    columns = ["Date"; "Time"; "Timestamp"] ++ registers
    /\ (forall reg, reg ∈ registers <-> is_Some (register_mapping !! reg))
    /\ (forall reg col, register_mapping !! reg = Some col ->
                        col ∈ sanitized_columns)
    /\ (forall reg reg' col, register_mapping !! reg = Some col ->
                             register_mapping !! reg' = Some col -> reg = reg').
Proof.
  unfold extract_data. intros H.
  destruct (device_open w url) as [u|e]; [|done].
  destruct (register_query w url _) as [[rows registers]|e]; [|done].
  destruct (List.length rows <? 2)%nat; [done|].
  destruct (make_columns_unique registers) as [san|] eqn:Hsan; [|done].
  cbn [mbind option_bind] in H.
  destruct (_process_rows _ _ _ _) as [data'|e]; [|done].
  injection H as <- <- <- <- <-.
  exists registers. split; [done|]. split; [|split].
  - intros reg. split.
    + by apply orchestrator_mapping_total.
    + intros [col (i & Hi & _)%dict_zip_lookup].
      apply list_elem_of_lookup. eauto.
  - intros reg col. apply orchestrator_mapping_range.
  - intros reg reg' col. by apply orchestrator_mapping_inj.
Qed.

Lemma extract_data_mapping_one_to_one_witness :
  exists registers,
    ["Date"; "Time"; "Timestamp"; "A"] = ["Date"; "Time"; "Timestamp"] ++ registers
    /\ (forall reg, reg ∈ registers <-> is_Some (dict_zip ["A"] ["a"] !! reg)).
Proof.
  assert (extract_data Sample.device_A "device" 0 300 1
          = Some (Success ["Date"; "Time"; "Timestamp"; "A"] ["a"]
                    (dict_zip ["A"] ["a"]) Sample.records_A 1)) as H
    by (vm_compute; reflexivity).
  destruct (extract_data_mapping_one_to_one _ _ _ _ _ _ _ _ _ _ H)
    as (registers & H1 & H2 & _).
  exists registers. split; [exact H1|exact H2].
Defined.



End extraction.
(** ** Batched writes *)

Section batch_loops.
Import SupabaseService.
Context {St E A : Type}.

Lemma range0_positive (stop : nat) (step : Z) :
  (0 < step)%Z ->
  range0 stop step
  = (fun k => k * Z.to_nat step)%nat
      <$> seq 0 (Z.to_nat ((Z.of_nat stop + step - 1) / step)).
Proof.
  intros H. unfold range0. by destruct (Z.ltb_spec 0 step); [|lia].
Qed.

(** The number of slices: the length divided by the size, rounded up. *)
Lemma range0_count (stop : nat) (step : Z) :
  (0 < step)%Z ->
  let n := Z.to_nat ((Z.of_nat stop + step - 1) / step) in
  ((n - 1) * Z.to_nat step < stop \/ n = 0)%nat
  /\ (stop ≤ n * Z.to_nat step)%nat
  /\ (stop = 0 -> n = 0)%nat.
Proof.
  intros Hstep n.
  assert (0 <= (Z.of_nat stop + step - 1) / step)%Z as Hq
    by (apply Z.div_pos; lia).
  pose proof (Z.mul_div_le (Z.of_nat stop + step - 1) step Hstep) as Hlo.
  pose proof (Z.mul_succ_div_gt (Z.of_nat stop + step - 1) step Hstep) as Hhi.
  assert (Z.of_nat n = (Z.of_nat stop + step - 1) / step)%Z as Hn
    by (unfold n; lia).
  rewrite <- Hn in Hlo, Hhi.
  split; [|split].
  - destruct (decide (n = 0%nat)) as [|Hne]; [by right|left]. nia.
  - nia.
  - intros ->. nia.
Qed.

Lemma concat_slices (data : list A) (size : nat) : forall m k0 : nat,
  concat (slice data size <$> ((fun k => k * size)%nat <$> seq k0 m))
  = take (m * size) (drop (k0 * size) data).
Proof.
  induction m as [|m IH]; intros k0; [done|].
  cbn [seq fmap list_fmap concat]. rewrite IH. unfold slice.
  replace (S k0 * size)%nat with (k0 * size + size)%nat by lia.
  by rewrite <- drop_drop, take_take_drop.
Qed.

Lemma length_concat_slices (data : list A) (size : nat) (starts : list nat) :
  List.length (concat (slice data size <$> starts))
  = foldr (fun i acc => (List.length (slice data size i) + acc)%nat)
          0%nat starts.
Proof.
  induction starts as [|i rest IH]; [done|].
  cbn [fmap list_fmap concat foldr]. by rewrite length_app, IH.
Qed.

(** Whatever the store, a loop that ends normally has counted the
    lengths of all its slices. *)
Lemma batch_loop_count (upsert : St -> string -> list A -> St * option E)
    table_name (data : list A) size : forall starts s count n,
  (batch_loop upsert table_name data size starts s count).2 = Inserted n ->
  n = (count + List.length (concat (slice data size <$> starts)))%nat.
Proof.
  induction starts as [|i rest IH]; intros s count n; cbn [batch_loop].
  - intros [= <-]. simpl. lia.
  - destruct (upsert s table_name _) as [s' [e|]]; [done|].
    intros H. apply IH in H. rewrite H.
    cbn [fmap list_fmap concat]. rewrite length_app. unfold slice. lia.
Qed.

(** With the logging store: the log grows by the slices sent, up to and
    including the first one the store refuses. *)
Lemma batch_loop_logging (fails : list A -> option E) table_name
    (data : list A) size : forall starts log count,
  exists sent rest,
    slice data size <$> starts = sent ++ rest
    /\ (batch_loop (logging fails) table_name data size starts log count).1
       = log ++ sent
    /\ match (batch_loop (logging fails) table_name data size starts log count).2 with
       | Inserted _ => rest = [] /\ Forall (fun b => fails b = None) sent
       | Failed (UpsertFailed e) =>
           exists before batch,
             sent = before ++ [batch] /\ fails batch = Some e
             /\ Forall (fun b => fails b = None) before
       | Failed RangeStepZero => False
       end.
Proof.
  induction starts as [|i rest IH]; intros log count; cbn [batch_loop].
  - exists [], []. split; [done|]. split; [cbn; by rewrite app_nil_r|].
    cbn. split; [done|constructor].
  - unfold logging at 1 3. cbn [fst snd].
    change (take size (drop i data)) with (slice data size i).
    destruct (fails (slice data size i)) as [e|] eqn:Hf.
    + exists [slice data size i], (slice data size <$> rest).
      split; [done|]. split; [done|].
      exists [], (slice data size i). by repeat split.
    + destruct (IH (log ++ [slice data size i])
                   (count + List.length (slice data size i))%nat)
        as (sent & rest' & Hsplit & Hlog & Hres).
      exists (slice data size i :: sent), rest'.
      split; [cbn [fmap list_fmap]; by rewrite Hsplit|].
      split; [by rewrite Hlog, <- app_assoc|].
      destruct (batch_loop _ _ _ _ _ _ _).2 as [n|[|e]].
      * destruct Hres as [-> Hall]. split; [done|]. by constructor.
      * done.
      * destruct Hres as (before & batch & -> & Hbad & Hall).
        exists (slice data size i :: before), batch.
        split; [done|]. split; [done|]. by constructor.
Qed.

End batch_loops.

Import SupabaseService.

(** The batches of [data] in slices of [size], as [insert_data_batch]
    cuts them for a positive size. *)
Lemma batches_shape {A : Type} (data : list A) (batch_size : Z) :
  (0 < batch_size)%Z ->
  let size := Z.to_nat batch_size in
  let batches := slice data size <$> range0 (List.length data) batch_size in
  concat batches = data
  /\ Forall (fun b => (1 ≤ List.length b ≤ size)%nat) batches
  /\ (forall (i : nat) b, batches !! i = Some b ->
        (S i < List.length batches)%nat -> List.length b = size)
  /\ Z.of_nat (List.length batches)
     = ((Z.of_nat (List.length data) + batch_size - 1) / batch_size)%Z.
Proof.
  intros Hpos size batches. unfold batches.
  rewrite range0_positive by done.
  destruct (range0_count (List.length data) batch_size Hpos) as (Hlast & Hcover & _).
  fold size in Hlast, Hcover |- *.
  set (n := Z.to_nat ((Z.of_nat (List.length data) + batch_size - 1) / batch_size))
    in *.
  assert (0 < size)%nat as Hsize by (unfold size; lia).
  assert (forall (i : nat) b,
            (slice data size <$> ((fun k => k * size)%nat <$> seq 0 n)) !! i = Some b ->
            (i < n)%nat /\ b = slice data size (i * size)) as Hat.
  { intros i b. rewrite !list_lookup_fmap.
    destruct (seq 0 n !! i) as [k|] eqn:Hk; [|done].
    apply lookup_seq in Hk as [-> Hi]. simpl. intros [= <-]. done. }
  split; [|split; [|split]].
  - rewrite concat_slices. simpl. apply take_ge. lia.
  - apply Forall_lookup. intros i b Hb. apply Hat in Hb as [Hi ->].
    unfold slice. rewrite length_take, length_drop. nia.
  - intros i b Hb Hnext. apply Hat in Hb as [Hi ->].
    rewrite !length_fmap, length_seq in Hnext.
    unfold slice. rewrite length_take, length_drop. nia.
  - rewrite !length_fmap, length_seq. unfold n.
    rewrite Z2Nat.id; [done|]. apply Z.div_pos; lia.
Qed.

Section batches.
Context {St E A : Type}.

(** X7. With a positive batch size and a store that accepts every
    batch, the batches written are the data cut in order into slices:
    put end to end they are the data, none is empty or longer than the
    batch size, all but the last have exactly the batch size, their
    number is the length divided by the batch size rounded up, and the
    count returned is the length of the data. *)
Theorem insert_data_batch_partition table_name (data : list A) (batch_size : Z) :
  (0 < batch_size)%Z ->
  exists batches,
    insert_data_batch recording [] table_name data batch_size
    = (batches, Inserted (List.length data))
    /\ concat batches = data
    /\ Forall (fun b => (1 ≤ List.length b ≤ Z.to_nat batch_size)%nat) batches
    /\ (forall (i : nat) b, batches !! i = Some b ->
          (S i < List.length batches)%nat ->
          List.length b = Z.to_nat batch_size)
    /\ Z.of_nat (List.length batches)
       = ((Z.of_nat (List.length data) + batch_size - 1) / batch_size)%Z.
Proof.
  intros Hpos.
  destruct (batches_shape data batch_size Hpos) as (Hcat & Hlens & Hfull & Hnum).
  exists (slice data (Z.to_nat batch_size) <$> range0 (List.length data) batch_size).
  split; [|done].
  unfold insert_data_batch, recording.
  destruct (Z.eqb_spec batch_size 0) as [|_]; [lia|].
  destruct (batch_loop_logging (E:=Empty_set) (fun _ => None) table_name data
              (Z.to_nat batch_size) (range0 (List.length data) batch_size) [] 0%nat)
    as (sent & rest & Hsplit & Hlog & Hres).
  pose proof (batch_loop_count (logging (E:=Empty_set) (fun _ => None)) table_name
                data (Z.to_nat batch_size)
                (range0 (List.length data) batch_size) [] 0%nat) as Hcount.
  destruct (batch_loop _ _ _ _ _ _ _) as [log [n|[|e]]]; cbn [fst snd] in *.
  - destruct Hres as [-> _]. rewrite app_nil_r in Hsplit. subst sent.
    rewrite (Hcount n eq_refl), Hcat. by rewrite Hlog.
  - done.
  - destruct e.
Qed.

(** X8. Whatever the store does, when [insert_data_batch] returns a
    count for a positive batch size, the count is the length of the
    data: there is no partial count. *)
Theorem insert_data_batch_reports_all
    (upsert : St -> string -> list A -> St * option E)
    (s : St) table_name (data : list A) (batch_size : Z) (n : nat) :
  (0 < batch_size)%Z ->
  (insert_data_batch upsert s table_name data batch_size).2 = Inserted n ->
  n = List.length data.
Proof.
  intros Hpos. unfold insert_data_batch.
  destruct (Z.eqb_spec batch_size 0) as [|_]; [lia|].
  intros H. apply batch_loop_count in H. rewrite H.
  by rewrite (proj1 (batches_shape data batch_size Hpos)).
Qed.

(** X9. A batch size of zero raises the error of [range] before any
    write; a negative batch size writes nothing and returns the count 0,
    whatever the data. *)
Theorem insert_data_batch_nonpositive_size
    (upsert : St -> string -> list A -> St * option E)
    (s : St) table_name (data : list A) (batch_size : Z) :
  (batch_size <= 0)%Z ->
  insert_data_batch upsert s table_name data batch_size
  = (s, if (batch_size =? 0)%Z then Failed RangeStepZero else Inserted 0).
Proof.
  intros Hle. unfold insert_data_batch, range0.
  destruct (Z.eqb_spec batch_size 0); [done|].
  by destruct (Z.ltb_spec 0 batch_size); [lia|].
Qed.

(** X10. When the store refuses a batch, the error is the store's, the
    batches before it have been written and stay written, and no later
    batch is sent: the batches the store saw are the leading batches of
    an undisturbed run, the refused one last. *)
Theorem insert_data_batch_stops_at_failure (fails : list A -> option E)
    table_name (data : list A) (batch_size : Z) :
  (0 < batch_size)%Z ->
  exists unsent,
    (insert_data_batch recording [] table_name data batch_size).1
    = (insert_data_batch (logging fails) [] table_name data batch_size).1
      ++ unsent
    /\ match (insert_data_batch (logging fails) [] table_name data batch_size).2 with
       | Inserted n =>
           unsent = [] /\ n = List.length data
           /\ Forall (fun b => fails b = None)
                (insert_data_batch (logging fails) [] table_name data batch_size).1
       | Failed (UpsertFailed e) =>
           exists before batch,
             (insert_data_batch (logging fails) [] table_name data batch_size).1
             = before ++ [batch]
             /\ fails batch = Some e
             /\ Forall (fun b => fails b = None) before
       | Failed RangeStepZero => False
       end.
Proof.
  intros Hpos. unfold insert_data_batch, recording.
  destruct (Z.eqb_spec batch_size 0) as [|_]; [lia|].
  destruct (batch_loop_logging (E:=Empty_set) (fun _ => None) table_name data
              (Z.to_nat batch_size) (range0 (List.length data) batch_size)
              [] 0%nat) as (sent0 & rest0 & Hsplit0 & Hlog0 & Hres0).
  assert (rest0 = []) as ->.
  { destruct (batch_loop (logging (E:=Empty_set) (fun _ => None))
                _ _ _ _ _ _).2 as [n|[|e]];
      [by destruct Hres0|done|destruct e]. }
  rewrite app_nil_r in Hsplit0. rewrite Hlog0, <- Hsplit0. cbn [app].
  destruct (batch_loop_logging fails table_name data
              (Z.to_nat batch_size) (range0 (List.length data) batch_size)
              [] 0%nat) as (sent & rest & Hsplit & Hlog & Hres).
  pose proof (batch_loop_count (logging fails) table_name data
                (Z.to_nat batch_size)
                (range0 (List.length data) batch_size) [] 0%nat) as Hcount.
  rewrite Hlog. cbn [app]. exists rest. split; [exact Hsplit|].
  destruct (batch_loop (logging fails) table_name data (Z.to_nat batch_size)
              (range0 (List.length data) batch_size) [] 0%nat).2
    as [n|[|e]] eqn:Hr.
  - destruct Hres as [-> Hall]. split; [done|]. split; [|done].
    rewrite (Hcount n eq_refl).
    by rewrite (proj1 (batches_shape data batch_size Hpos)).
  - done.
  - exact Hres.
Qed.

End batches.

Lemma insert_data_batch_partition_witness :
  exists batches,
    insert_data_batch recording [] "client_1" [1; 2; 3; 4; 5]%nat 2
    = (batches, Inserted 5)
    /\ concat batches = [1; 2; 3; 4; 5]%nat.
Proof.
  destruct (insert_data_batch_partition "client_1" [1; 2; 3; 4; 5]%nat 2 eq_refl)
    as (batches & H1 & H2 & _).
  exists batches. split; [exact H1|exact H2].
Defined.

Lemma insert_data_batch_reports_all_witness :
  5%nat = List.length [1; 2; 3; 4; 5]%nat.
Proof.
  apply (insert_data_batch_reports_all
           (logging (E:=string) (fun _ => None)) [] "client_1"
           [1; 2; 3; 4; 5]%nat 2 5).
  - reflexivity.
  - vm_compute. reflexivity.
Defined.

Lemma insert_data_batch_nonpositive_size_witness :
  insert_data_batch (logging (E:=string) (fun _ => None)) [] "client_1"
    [1; 2; 3]%nat (-5)
  = ([], Inserted 0).
Proof.
  apply (insert_data_batch_nonpositive_size
           (logging (E:=string) (fun _ => None)) [] "client_1" [1; 2; 3]%nat (-5)).
  discriminate.
Defined.

Lemma insert_data_batch_stops_at_failure_witness :
  exists unsent,
    (insert_data_batch recording [] "client_1" [1; 2; 3; 4; 5]%nat 2).1
    = (insert_data_batch
         (logging (fun b => if bool_decide (3%nat ∈ b) then Some "refused" else None))
         [] "client_1" [1; 2; 3; 4; 5]%nat 2).1 ++ unsent.
Proof.
  destruct (insert_data_batch_stops_at_failure
              (fun b => if bool_decide (3%nat ∈ b) then Some "refused" else None)
              "client_1" [1; 2; 3; 4; 5]%nat 2 eq_refl) as (unsent & H & _).
  exists unsent. exact H.
Defined.

(** ** Records prepared for insertion *)

Section prepared.
Import Calendar EGaugeService DataRoute.

Lemma own_keys_dec (key : string) :
  key ∈ own_keys
  <-> key = "date" \/ key = "time" \/ key = "timestamp" \/ key = "tariff".
Proof.
  unfold own_keys. rewrite !elem_of_cons, elem_of_nil. tauto.
Qed.

(** A row that has its four own keys is prepared without error, and the
    prepared row is known key by key. *)
Lemma prepare_row_lookup (row : gmap string Val) d t ts tf :
  row !! "date" = Some d -> row !! "time" = Some t ->
  row !! "timestamp" = Some ts -> row !! "tariff" = Some tf ->
  exists prepared : gmap string Val,
    prepare_row row = Ok prepared
    /\ forall key,
         prepared !! key =
         (if decide (key ∈ own_keys)
          then (if decide (key = "timestamp") then None else row !! key)
          else match row !! key with
               | Some v => Some v
               | None => if decide (key = "timestamp_egauge") then Some ts
                         else None
               end).
Proof.
  intros Hd Ht Hts Htf. unfold prepare_row, subscript.
  rewrite Hd, Ht, Hts, Htf. eexists. split; [reflexivity|].
  intros key. rewrite lookup_union.
  rewrite (map_lookup_filter (fun kv => kv.1 ∉ own_keys) row key).
  destruct (decide (key ∈ own_keys)) as [Hown|Hother].
  - replace (row !! key ≫= _) with (@None Val).
    2:{ destruct (row !! key); simpl; [|done].
        by rewrite option_guard_False by (simpl; tauto). }
    apply own_keys_dec in Hown as [-> | [-> | [-> | ->]]]; by simplify_map_eq.
  - assert (key ≠ "date" /\ key ≠ "time" /\ key ≠ "timestamp" /\ key ≠ "tariff")
      as (? & ? & ? & ?).
    { rewrite own_keys_dec in Hother. naive_solver. }
    destruct (row !! key) as [v|]; simpl.
    + rewrite option_guard_True by done. simpl.
      by destruct (_ !! key).
    + destruct (decide (key = "timestamp_egauge")) as [->|Hne];
        by simplify_map_eq.
Qed.

(** X11. A row that has the keys date, time, timestamp and tariff is
    prepared without error.  The prepared row has no key timestamp; its
    key timestamp_egauge holds the row's timestamp, unless the row has a
    key timestamp_egauge of its own, whose value then takes its place;
    every other key of the row is kept with its value. *)
Theorem prepare_row_keys (row : gmap string Val) d t ts tf :
  row !! "date" = Some d -> row !! "time" = Some t ->
  row !! "timestamp" = Some ts -> row !! "tariff" = Some tf ->
  exists prepared : gmap string Val,
    prepare_row row = Ok prepared
    /\ prepared !! "timestamp" = None
    /\ prepared !! "timestamp_egauge"
       = Some (default ts (row !! "timestamp_egauge"))
    /\ prepared !! "date" = Some d /\ prepared !! "time" = Some t
    /\ prepared !! "tariff" = Some tf
    /\ (forall key, key ∉ own_keys -> key ≠ "timestamp_egauge" ->
                    prepared !! key = row !! key).
Proof.
  intros Hd Ht Hts Htf.
  destruct (prepare_row_lookup row d t ts tf Hd Ht Hts Htf) as (p & Hp & Hkeys).
  exists p. split; [exact Hp|].
  split; [by rewrite Hkeys|].
  split; [rewrite Hkeys; cbn; by destruct (row !! "timestamp_egauge")|].
  split; [by rewrite Hkeys|]. split; [by rewrite Hkeys|].
  split; [by rewrite Hkeys|].
  intros key Hown Hne. rewrite Hkeys.
  destruct (decide (key ∈ own_keys)); [done|].
  destruct (row !! key); [done|]. by destruct (decide (key = "timestamp_egauge")).
Qed.

Lemma prepare_row_keys_witness :
  exists prepared : gmap string Val,
    prepare_row Sample.record_100 = Ok prepared
    /\ prepared !! "timestamp" = None
    /\ prepared !! "timestamp_egauge" = Some (VInt 100).
Proof.
  destruct (prepare_row_keys Sample.record_100
              (VStr "1970-01-01") (VStr "00:01:40") (VInt 100) (VStr "Base"))
    as (p & H1 & H2 & H3 & _); try (vm_compute; reflexivity).
  exists p. split; [exact H1|]. split; [exact H2|exact H3].
Defined.

Lemma prepare_loop_spec (data : list (gmap string Val)) : forall acc,
  Forall (fun rec => exists p, prepare_row rec = Ok p) data ->
  exists prepared,
    prepare_loop data acc = Ok (acc ++ prepared)
    /\ Forall2 (fun rec p => prepare_row rec = Ok p) data prepared.
Proof.
  induction data as [|rec data IH]; intros acc Hall.
  - exists []. rewrite app_nil_r. split; [done|constructor].
  - apply Forall_cons in Hall as [[p Hp] Hall]. cbn [prepare_loop].
    rewrite Hp. destruct (IH (acc ++ [p]) Hall) as (prepared & Hrun & Hrel).
    exists (p :: prepared). rewrite <- app_assoc in Hrun.
    split; [exact Hrun|]. by constructor.
Qed.

(** What a successful extraction is made of. *)
Lemma extract_data_success_parts w url start_date end_date delta_hours
    columns sanitized (mapping : gmap string string) data total :
  extract_data w url start_date end_date delta_hours
  = Some (Success columns sanitized mapping data total) ->
  exists rows registers,
    make_columns_unique registers = Some sanitized
    /\ mapping = dict_zip registers sanitized
    /\ _process_rows (utcoffset w) rows registers mapping = Ok data.
Proof.
  unfold extract_data. intros H.
  destruct (device_open w url) as [u|e]; [|done].
  destruct (register_query w url _) as [[rows registers]|e]; [|done].
  destruct (List.length rows <? 2)%nat; [done|].
  destruct (make_columns_unique registers) as [san|] eqn:Hsan; [|done].
  cbn [mbind option_bind] in H.
  destruct (_process_rows _ _ _ _) as [data'|e] eqn:Hrun; [|done].
  injection H as <- <- <- <- <-. by exists rows, registers.
Qed.

(** The row the reducer starts from has the four fixed keys only. *)
Lemma base_row_keys (d t ts tf : Val) (key : string) :
  is_Some ((<["tariff" := tf]> (<["timestamp" := ts]>
              (<["time" := t]> (<["date" := d]> (∅ : gmap string Val))))) !! key)
  <-> key ∈ fixed_keys.
Proof.
  unfold fixed_keys. rewrite !elem_of_cons, elem_of_nil, !lookup_insert.
  rewrite lookup_empty.
  repeat case_decide; subst; split; intros Hkey;
    try (by eexists); try tauto; try (by destruct Hkey).
  all: intuition congruence.
Qed.

(** The keys of a record of the reducer: the four it starts with and the
    columns of the registers. *)
Lemma reducer_record_keys utcoffset rows registers sanitized data :
  make_columns_unique registers = Some sanitized ->
  _process_rows utcoffset rows registers (dict_zip registers sanitized) = Ok data ->
  Forall (fun rec : gmap string Val =>
            (forall key, key ∈ fixed_keys -> is_Some (rec !! key))
            /\ (forall key, is_Some (rec !! key) ->
                            key ∈ fixed_keys \/ key ∈ sanitized)) data.
Proof.
  intros Hsan [Hlen Hrows]%process_rows_Ok.
  apply Forall_lookup. intros i rec Hrec.
  assert (i < List.length rows - 1)%nat as Hi
    by (apply lookup_lt_Some in Hrec; lia).
  destruct (lookup_lt_is_Some_2 rows i) as [a Ha]; [lia|].
  destruct (lookup_lt_is_Some_2 rows (S i)) as [b Hb]; [lia|].
  destruct (Hrows i a b Ha Hb) as (rec' & Hrec' & Hrow).
  assert (rec' = rec) as -> by congruence.
  apply interval_row_Ok in Hrow as (delta_row & stamp & dt & _ & _ & _ & Hloop).
  apply registers_loop_spec in Hloop as (_ & Hother & Hmine).
  assert (forall key,
            (exists reg, reg ∈ registers
                         /\ dict_zip registers sanitized !! reg = Some key)
            \/ (forall reg, reg ∈ registers ->
                            dict_zip registers sanitized !! reg ≠ Some key))
    as Hcase.
  { intros key.
    destruct (decide (Exists (fun reg => dict_zip registers sanitized !! reg = Some key)
                             registers)) as [Hex|Hno].
    - left. apply Exists_exists in Hex. exact Hex.
    - right. intros reg Hreg Heq. apply Hno, Exists_exists. eauto. }
  split.
  - intros key Hkey. destruct (Hcase key) as [(reg & Hreg & Hcol)|Hnone].
    + destruct (Hmine reg key Hreg Hcol) as (v & _ & ->); [|by eexists].
      intros r' _ Hr'. by apply (orchestrator_mapping_inj registers sanitized r' reg key).
    + rewrite (Hother key Hnone). by apply base_row_keys.
  - intros key Hsome. destruct (Hcase key) as [(reg & Hreg & Hcol)|Hnone].
    + right. by eapply orchestrator_mapping_range.
    + left. rewrite (Hother key Hnone) in Hsome. by apply base_row_keys in Hsome.
Qed.

Lemma fixed_keys_present (rec : gmap string Val) :
  (forall key, key ∈ fixed_keys -> is_Some (rec !! key)) ->
  exists d t ts tf,
    rec !! "date" = Some d /\ rec !! "time" = Some t
    /\ rec !! "timestamp" = Some ts /\ rec !! "tariff" = Some tf.
Proof.
  intros H. unfold fixed_keys in H.
  destruct (H "date") as [d Hd]; [rewrite !elem_of_cons; tauto|].
  destruct (H "time") as [t Ht]; [rewrite !elem_of_cons; tauto|].
  destruct (H "timestamp") as [ts Hts]; [rewrite !elem_of_cons; tauto|].
  destruct (H "tariff") as [tf Htf]; [rewrite !elem_of_cons; tauto|].
  by exists d, t, ts, tf.
Qed.

(** X12. The records of a successful extraction are all prepared
    without error, one prepared row per record, and every key of a
    prepared row is date, time, timestamp_egauge, tariff or one of the
    sanitized columns the client's table is created with. *)
Theorem prepared_rows_fit_table w url start_date end_date delta_hours
    columns sanitized (mapping : gmap string string) data total :
  extract_data w url start_date end_date delta_hours
  = Some (Success columns sanitized mapping data total) ->
  exists prepared,
    prepare_rows data = Ok prepared
    /\ List.length prepared = List.length data
    /\ Forall (fun p : gmap string Val =>
                 forall key, is_Some (p !! key) ->
                             key ∈ record_columns \/ key ∈ sanitized) prepared.
Proof.
  intros (rows & registers & Hsan & -> & Hrun)%extract_data_success_parts.
  pose proof (reducer_record_keys _ _ _ _ _ Hsan Hrun) as Hkeys.
  destruct (prepare_loop_spec data []) as (prepared & Hprep & Hrel).
  { eapply Forall_impl; [exact Hkeys|]. intros rec [Hfixed _].
    destruct (fixed_keys_present rec Hfixed) as (d & t & ts & tf & Hd & Ht & Hts & Htf).
    destruct (prepare_row_lookup rec d t ts tf Hd Ht Hts Htf) as (p & Hp & _).
    by exists p. }
  exists prepared. split; [exact Hprep|].
  split; [symmetry; by eapply Forall2_length|].
  apply Forall_lookup. intros i p Hp.
  destruct (Forall2_lookup_r _ _ _ i p Hrel Hp) as (rec & Hrec & Hrow).
  destruct (proj1 (Forall_lookup _ _) Hkeys i rec Hrec) as [Hfixed Hdom].
  destruct (fixed_keys_present rec Hfixed) as (d & t & ts & tf & Hd & Ht & Hts & Htf).
  destruct (prepare_row_lookup rec d t ts tf Hd Ht Hts Htf) as (p' & Hp' & Hlook).
  assert (p' = p) as -> by congruence.
  intros key Hsome. rewrite Hlook in Hsome.
  unfold record_columns. rewrite !elem_of_cons, elem_of_nil.
  destruct (decide (key ∈ own_keys)) as [Hown|Hother].
  - destruct (decide (key = "timestamp")); [by destruct Hsome|].
    apply own_keys_dec in Hown. left. tauto.
  - destruct (rec !! key) as [v|] eqn:Hv.
    + destruct (Hdom key) as [Hf|Hs]; [by eexists|done|by right].
    + destruct (decide (key = "timestamp_egauge")); [left; tauto|].
      by destruct Hsome.
Qed.

Lemma prepared_rows_fit_table_witness :
  exists prepared,
    prepare_rows Sample.records_A = Ok prepared
    /\ List.length prepared = List.length Sample.records_A.
Proof.
  assert (extract_data Sample.device_A "device" 0 300 1
          = Some (Success ["Date"; "Time"; "Timestamp"; "A"] ["a"]
                    (dict_zip ["A"] ["a"]) Sample.records_A 1)) as H
    by (vm_compute; reflexivity).
  destruct (prepared_rows_fit_table _ _ _ _ _ _ _ _ _ _ H)
    as (prepared & H1 & H2 & _).
  exists prepared. split; [exact H1|exact H2].
Defined.

(** X13. When no sanitized column is date, time, timestamp, tariff or
    timestamp_egauge, the row prepared from the record of a pair of
    readings has no key timestamp; under timestamp_egauge it has the
    float made of the timestamp of the second reading of the pair, which
    is that timestamp itself below 2^53; and it keeps the date, the time
    and the tariff of that instant. *)
Theorem prepared_natural_key utcoffset (rows : list Row)
    (registers sanitized : list string) data :
  make_columns_unique registers = Some sanitized ->
  Forall (fun key => key ∉ sanitized) ("timestamp_egauge" :: own_keys) ->
  _process_rows utcoffset rows registers (dict_zip registers sanitized) = Ok data ->
  exists prepared,
    prepare_rows data = Ok prepared
    /\ List.length prepared = (List.length rows - 1)%nat
    /\ forall i a b, rows !! i = Some a -> rows !! S i = Some b ->
         exists (p : gmap string Val) stamp dt,
           prepared !! i = Some p
           /\ Float.of_int (ts b) = Ok stamp
           /\ ((Z.abs (ts b) < 2 ^ 53)%Z -> stamp = ts b)
           /\ fromtimestamp utcoffset stamp = Ok dt
           /\ p !! "timestamp_egauge" = Some (VInt stamp)
           /\ p !! "timestamp" = None
           /\ p !! "date" = Some (VStr (strftime_date dt))
           /\ p !! "time" = Some (VStr (strftime_time dt))
           /\ p !! "tariff"
              = Some (VStr (tariff_str (TariffClassifier.classify_tariff dt))).
Proof.
  intros Hsan Hfree Hrun.
  apply Forall_cons in Hfree as [Hkey Hfixed].
  destruct (reducer_deltas utcoffset rows registers sanitized data Hsan Hfixed Hrun)
    as [Hlen Hrows].
  pose proof (reducer_record_keys _ _ _ _ _ Hsan Hrun) as Hkeys.
  destruct (prepare_loop_spec data []) as (prepared & Hprep & Hrel).
  { eapply Forall_impl; [exact Hkeys|]. intros rec [Hfix _].
    destruct (fixed_keys_present rec Hfix) as (d & t & ts & tf & Hd & Ht & Hts & Htf).
    destruct (prepare_row_lookup rec d t ts tf Hd Ht Hts Htf) as (p & Hp & _).
    by exists p. }
  exists prepared. split; [exact Hprep|].
  split; [rewrite <- Hlen; symmetry; by eapply Forall2_length|].
  intros i a b Ha Hb.
  destruct (Hrows i a b Ha Hb)
    as (rec & stamp & dt & Hrec & Hfloat & Hdt & Hstamp & Hdate & Htime
        & Htariff & _).
  destruct (Forall2_lookup_l _ _ _ i rec Hrel Hrec) as (p & Hp & Hrow).
  destruct (prepare_row_lookup rec _ _ _ _ Hdate Htime Hstamp Htariff)
    as (p' & Hp' & Hlook).
  assert (p' = p) as -> by congruence.
  destruct (proj1 (Forall_lookup _ _) Hkeys i rec Hrec) as [_ Hdom].
  exists p, stamp, dt. split; [exact Hp|]. split; [exact Hfloat|].
  split. { intros Hsmall. rewrite (of_int_exact _ Hsmall) in Hfloat. congruence. }
  split; [exact Hdt|]. split.
  { rewrite Hlook. cbn.
    destruct (rec !! "timestamp_egauge") as [v|] eqn:Hv; [|done].
    exfalso. destruct (Hdom "timestamp_egauge") as [Hf|Hs]; [by eexists| |done].
    unfold fixed_keys in Hf. rewrite !elem_of_cons, elem_of_nil in Hf.
    intuition discriminate. }
  split; [by rewrite Hlook|].
  split; [by rewrite Hlook|]. split; by rewrite Hlook.
Qed.

Lemma prepared_natural_key_witness :
  exists prepared,
    prepare_rows Sample.records_three = Ok prepared
    /\ List.length prepared = 2%nat.
Proof.
  assert (make_columns_unique ["A"] = Some ["a"]) as Hsan
    by (vm_compute; reflexivity).
  assert (Forall (fun key => key ∉ ["a"]) ("timestamp_egauge" :: own_keys)) as Hfree
    by (apply (bool_decide_unpack _); vm_compute; exact I).
  assert (_process_rows Sample.utc Sample.three ["A"] (dict_zip ["A"] ["a"])
          = Ok Sample.records_three) as Hrun
    by (vm_compute; reflexivity).
  destruct (prepared_natural_key Sample.utc Sample.three ["A"] ["a"]
              Sample.records_three Hsan Hfree Hrun) as (prepared & H1 & H2 & _).
  exists prepared. split; [exact H1|exact H2].
Defined.

End prepared.

(** ** Date ranges *)

Section ranges.
Import Validators EGaugeService.
Local Open Scope Z_scope.

(** X14. A date range is accepted exactly when both dates parse, the
    start is not after the end, the start is not after the first reading
    of the clock, and the whole days from the start to the second
    reading of the clock do not exceed the limit; equal dates and an end
    in the future are accepted.  An accepted range comes back as the two
    parsed dates without a message; a rejected one as a message without
    dates. *)
Theorem validate_date_range_accepts (strptime : string -> parsed)
    (now1 now2 : Z) (start_str end_str : string) (max_days : Z) :
  let v := validate_date_range strptime now1 now2 start_str end_str max_days in
  (is_valid v = true <->
     exists sd ed, strptime start_str = Date sd /\ strptime end_str = Date ed
                   /\ sd <= ed /\ sd <= now1 /\ (now2 - sd) / 86400 <= max_days)
  /\ (is_valid v = true ->
        error_message v = None
        /\ exists sd ed, strptime start_str = Date sd /\ strptime end_str = Date ed
                         /\ start_date v = Some sd /\ end_date v = Some ed)
  /\ (is_valid v = false ->
        is_Some (error_message v) /\ start_date v = None /\ end_date v = None).
Proof.
  unfold validate_date_range.
  assert (forall (P Q : Prop) message, ~ P ->
            (is_valid (rejected message) = true <-> P)
            /\ (is_valid (rejected message) = true -> Q)
            /\ (is_valid (rejected message) = false ->
                  is_Some (error_message (rejected message))
                  /\ start_date (rejected message) = None
                  /\ end_date (rejected message) = None)) as Hrej.
  { intros P Q message HP. cbn. split; [split; [done|tauto]|]. split; [done|].
    intros _. split; [by eexists|done]. }
  destruct (strptime start_str) as [sd|e1].
  2:{ apply Hrej. by intros (? & ? & ? & _). }
  destruct (strptime end_str) as [ed|e2].
  2:{ apply Hrej. by intros (? & ? & _ & ? & _). }
  destruct (Z.ltb_spec ed sd).
  { apply Hrej. intros (? & ? & [= <-] & [= <-] & ?). lia. }
  destruct (Z.ltb_spec now1 sd).
  { apply Hrej. intros (? & ? & [= <-] & [= <-] & ?). lia. }
  destruct (Z.ltb_spec max_days ((now2 - sd) / 86400)).
  { apply Hrej. intros (? & ? & [= <-] & [= <-] & ?). lia. }
  cbn. split; [split; [intros _; by exists sd, ed|done]|].
  split; [intros _; split; [done|by exists sd, ed]|done].
Qed.

Lemma validate_date_range_accepts_witness :
  is_valid (validate_date_range Days.parse_day 129600 129600
              "1970-01-02" "1970-01-03" 365) = true.
Proof.
  destruct (validate_date_range_accepts Days.parse_day 129600 129600
              "1970-01-02" "1970-01-03" 365) as [[_ H] _].
  apply H. exists 86400, 172800.
  split; [reflexivity|]. split; [reflexivity|].
  split; [discriminate|]. split; discriminate.
Defined.



End ranges.

(** ** Device aliases *)

Section aliases.
Import Extractor.

Lemma split_cons sep s : exists piece pieces, split sep s = piece :: pieces.
Proof.
  destruct s as [|c t]; [by exists EmptyString, []|]. cbn [split].
  destruct (Ascii.eqb c sep); [by eexists _, _|].
  destruct (split sep t); by eexists _, _.
Qed.

(** No piece of a split contains the separator. *)
Lemma split_pieces sep s :
  Forall (fun piece => contains sep piece = false) (split sep s).
Proof.
  induction s as [|c t IH]; [by repeat constructor|]. cbn [split].
  destruct (Ascii.eqb c sep) eqn:Hc.
  - constructor; [done|exact IH].
  - destruct (split sep t) as [|piece pieces].
    + constructor; [|constructor]. unfold contains. simpl. by rewrite Hc.
    + apply Forall_cons in IH as [Hp Hps]. constructor; [|exact Hps].
      unfold contains in *. simpl. rewrite Hc. exact Hp.
Qed.

Lemma last_piece_elem (l : list string) d : l ≠ [] -> List.last l d ∈ l.
Proof.
  induction l as [|x [|y l] IH]; [done|intros _; apply list_elem_of_here|].
  intros _. apply list_elem_of_further. by apply IH.
Qed.

Lemma last_piece_clean sep s : contains sep (last_piece (split sep s)) = false.
Proof.
  destruct (split_cons sep s) as (piece & pieces & Hs).
  apply (proj1 (Forall_forall _ _) (split_pieces sep s)).
  unfold last_piece. apply last_piece_elem. by rewrite Hs.
Qed.

Lemma first_piece_clean sep s : contains sep (first_piece (split sep s)) = false.
Proof.
  destruct (split_cons sep s) as (piece & pieces & Hs).
  pose proof (split_pieces sep s) as Hall. rewrite Hs in Hall |- *.
  by apply Forall_cons in Hall as [Hp _].
Qed.

(** A piece of a string without a character is without it too. *)
Lemma split_keeps_absent sep c s :
  contains c s = false ->
  Forall (fun piece => contains c piece = false) (split sep s).
Proof.
  unfold contains. induction s as [|a t IH]; [by repeat constructor|].
  simpl. intros H. apply negb_false_iff, andb_true_iff in H as [Ha Ht].
  assert (Forall (fun piece => negb (Str.all (fun a => negb (Ascii.eqb a c)) piece)
                               = false) (split sep t)) as Hrest
    by (apply IH; by rewrite Ht).
  destruct (Ascii.eqb a sep).
  - constructor; [done|exact Hrest].
  - destruct (split sep t) as [|piece pieces].
    + constructor; [|constructor]. simpl. by rewrite Ha.
    + apply Forall_cons in Hrest as [Hp Hps]. constructor; [|exact Hps].
      simpl. rewrite Ha. exact Hp.
Qed.

(** A string that ends with the separator splits into pieces the last of
    which is empty. *)
Lemma split_endswith sep s :
  endswith sep s = true ->
  exists init, init ≠ [] /\ split sep s = init ++ [EmptyString].
Proof.
  induction s as [|a t IH]; [done|]. intros H.
  assert (t = EmptyString /\ Ascii.eqb a sep = true
          \/ endswith sep t = true) as [[-> Ha]|Ht]
    by (destruct t; [by left|by right]).
  - cbn [split]. rewrite Ha. by exists [EmptyString].
  - destruct (IH Ht) as (init & Hne & Hsplit).
    cbn [split]. rewrite Hsplit.
    destruct (Ascii.eqb a sep).
    + exists (EmptyString :: init). by split.
    + destruct init as [|piece init]; [done|].
      exists (String a piece :: init). by split.
Qed.

(** X16. The alias of a URL that ends with a slash is the empty string. *)
Theorem alias_trailing_slash (url : string) :
  endswith "/" url = true -> alias url = "".
Proof.
  intros H. unfold alias. rewrite H.
  destruct (split_endswith _ _ H) as (init & _ & ->).
  unfold last_piece. by rewrite last_last.
Qed.

Lemma alias_trailing_slash_witness :
  alias "https://egauge90707.egaug.es/" = "".
Proof. exact (alias_trailing_slash "https://egauge90707.egaug.es/" eq_refl). Defined.

(** X17. An alias contains neither a slash nor a dot, whatever the
    URL; for the device URL of the scripts it is the host's first label. *)
Theorem alias_no_separators (url : string) :
  contains "/" (alias url) = false
  /\ contains "." (alias url) = false
  /\ alias "https://egauge90707.egaug.es" = "egauge90707".
Proof.
  split; [|split; [|reflexivity]]; unfold alias.
  - destruct (endswith "/" url); [apply last_piece_clean|].
    destruct (split_cons "." (last_piece (split "/" url)))
      as (piece & pieces & Hs).
    pose proof (split_keeps_absent "." "/" _ (last_piece_clean "/" url)) as Hall.
    rewrite Hs in Hall |- *. by apply Forall_cons in Hall as [Hp _].
  - destruct (endswith "/" url) eqn:He; [|apply first_piece_clean].
    destruct (split_endswith _ _ He) as (init & _ & ->).
    unfold last_piece. by rewrite last_last.
Qed.

End aliases.


(** ** A month of data *)

Section months.
Import Calendar EGaugeService MonthExtractor.

Lemma last_lookup (rows : list Row) :
  List.last (Some <$> rows) None = rows !! (List.length rows - 1)%nat.
Proof.
  induction rows as [|a [|b rows] IH]; [done|done|].
  change (List.last (Some <$> a :: b :: rows) None)
    with (List.last (Some <$> b :: rows) None).
  rewrite IH. simpl. by rewrite Nat.sub_0_r.
Qed.

Lemma new_datetime_Ok (year month day hour : Z) :
  (1 <= year <= 9999)%Z ->
  new_datetime year month day hour = Ok (mk_datetime year month day hour 0 0 0).
Proof.
  intros Hy. unfold new_datetime, MINYEAR, MAXYEAR.
  destruct (Z.leb_spec (- 2 ^ 63) year); [|lia].
  destruct (Z.ltb_spec year (2 ^ 63)); [|lia].
  destruct (Z.leb_spec (2 ^ 31) year); [lia|].
  destruct (Z.ltb_spec year (- 2 ^ 31)); [lia|].
  destruct (Z.leb_spec 1 year); [|lia].
  destruct (Z.leb_spec year 9999); [|lia].
  reflexivity.
Qed.

Lemma new_datetime_Raise (year month day hour : Z) :
  ~ (1 <= year <= 9999)%Z -> exists e, new_datetime year month day hour = Raise e.
Proof.
  intros Hy. unfold new_datetime, MINYEAR, MAXYEAR.
  repeat match goal with
         | |- context [if ?b then _ else _] => destruct b eqn:?
         end; try by eexists.
  exfalso. apply Hy.
  repeat match goal with
         | H : negb _ = false |- _ => apply negb_false_iff in H
         | H : _ && _ = true |- _ => apply andb_true_iff in H as [? ?]
         end.
  lia.
Qed.

Lemma month_in_range (month : Z) :
  (1 <= month <= 12)%Z -> negb ((1 <=? month) && (month <=? 12))%Z = false.
Proof.
  intros Hm. apply negb_false_iff, andb_true_iff. split; apply Z.leb_le; lia.
Qed.

(** The loop over the intervals, when it ends normally, has added one
    row per index. *)
Lemma month_rows_loop_Ok zone rows registers : forall indices acc out,
  month_rows_loop zone rows registers indices acc = Ok out ->
  List.length out = (List.length acc + List.length indices)%nat.
Proof.
  induction indices as [|i rest IH]; intros acc out; cbn [month_rows_loop].
  - intros [= <-]. simpl. lia.
  - destruct (rows !! i) as [a|]; [|done].
    destruct (rows !! (i + 1)%nat) as [b|]; [|done].
    intros (row_data & _ & Hrun)%bind_Ok_inv.
    rewrite (IH _ _ Hrun), length_app. simpl. lia.
Qed.

(** X18. When the device answers a month's query with a single reading,
    the month extraction reports "Insufficient data"; when it answers
    with no reading at all, the check is passed over and the report is
    the index error of the summary, "list index out of range".  This is
    for a month of a year of the calendar whose first and last hours have
    a timestamp. *)
Theorem extract_month_data_short_answers env url (year month : Z) u
    (start_ts end_ts : Z) (rows : list Row) (registers : list string) :
  (1 <= month <= 12)%Z -> (1 <= year <= 9999)%Z ->
  mktime env (month_start year month) = Ok start_ts ->
  mktime env (month_end year month) = Ok end_ts ->
  connect env url = Ok u ->
  month_query env url (time_param_str start_ts 3600 end_ts)
  = Ok (rows, registers) ->
  (List.length rows ≤ 1)%nat ->
  extract_month_data env url year month
  = inr (MonthError
           (if decide (List.length rows = 0%nat)
            then "list index out of range" else "Insufficient data")
           url (Extractor.alias url)).
Proof.
  intros Hm Hy Hstart Hend Hconn Hquery Hlen. unfold extract_month_data.
  rewrite (month_in_range month Hm), !new_datetime_Ok by done.
  unfold month_start, month_end in Hstart, Hend.
  rewrite Hstart, Hend, Hconn, Hquery.
  destruct rows as [|r [|r' rows]]; [reflexivity|reflexivity|].
  simpl in Hlen. lia.
Qed.

Lemma extract_month_data_short_answers_witness :
  extract_month_data (sample_env []) "https://egauge90707.egaug.es" 2025 9
  = inr (MonthError "list index out of range" "https://egauge90707.egaug.es"
           "egauge90707").
Proof.
  apply (extract_month_data_short_answers (sample_env [])
           "https://egauge90707.egaug.es" 2025 9 tt 1756684800 1759273200
           [] ["A"]).
  - lia.
  - lia.
  - reflexivity.
  - reflexivity.
  - reflexivity.
  - reflexivity.
  - simpl. lia.
Defined.

(** X19. When the month extraction returns the data of a month, the
    device answered the query of that month's first and last hours with
    at least two readings; the headers are Date, Time, Timestamp and the
    declared registers; [total_intervals] is the number of readings less
    one, and as many rows were made; the period starts at the local time
    of the last reading and ends at that of the first. *)
Theorem extract_month_data_fields env url (year month : Z)
    url' alias' period_start period_end headers data summary total_intervals :
  extract_month_data env url year month
  = inr (MonthData url' alias' period_start period_end headers data summary
           total_intervals) ->
  exists start_ts end_ts rows registers first_row last_row,
    mktime env (month_start year month) = Ok start_ts
    /\ mktime env (month_end year month) = Ok end_ts
    /\ month_query env url (time_param_str start_ts 3600 end_ts)
       = Ok (rows, registers)
    /\ url' = url /\ alias' = Extractor.alias url
    /\ headers = ["Date"; "Time"; "Timestamp"] ++ registers
    /\ (2 ≤ List.length rows)%nat
    /\ total_intervals = (Z.of_nat (List.length rows) - 1)%Z
    /\ List.length data = (List.length rows - 1)%nat
    /\ rows !! 0%nat = Some first_row
    /\ rows !! (List.length rows - 1)%nat = Some last_row
    /\ (exists stamp dt, Float.of_int (ts last_row) = Ok stamp
                         /\ fromtimestamp (zone env) stamp = Ok dt
                         /\ period_start = isoformat dt)
    /\ (exists stamp dt, Float.of_int (ts first_row) = Ok stamp
                         /\ fromtimestamp (zone env) stamp = Ok dt
                         /\ period_end = isoformat dt).
Proof.
  unfold extract_month_data. intros H.
  destruct (negb _); [done|].
  destruct (new_datetime year month 1 0) as [start_date|e] eqn:Hsd; [|done].
  destruct (new_datetime year month _ 23) as [end_date|e] eqn:Hed; [|done].
  assert (1 <= year <= 9999)%Z as Hy.
  { destruct (decide (1 <= year <= 9999)%Z) as [|Hout]; [done|].
    apply (new_datetime_Raise year month 1 0) in Hout as [e He]. congruence. }
  rewrite new_datetime_Ok in Hsd, Hed by done.
  injection Hsd as <-. injection Hed as <-.
  destruct (mktime env _) as [start_ts|e] eqn:Hstart in H; [|done].
  destruct (mktime env _) as [end_ts|e] eqn:Hend in H; [|done].
  destruct (connect env url) as [u|[]]; try done.
  destruct (month_query env url _) as [[rows registers]|e] eqn:Hquery; [|done].
  destruct (Z.eqb_spec (Z.of_nat (List.length rows) - 1) 0) as [|Hne]; [done|].
  destruct (month_report env url _ rows registers _) as [result|e] eqn:Hrep;
    [|done].
  injection H as ->. unfold month_report in Hrep.
  apply bind_Ok_inv in Hrep as (processed & Hloop & Hrep).
  apply bind_Ok_inv in Hrep as (first_row & Hfirst & Hrep).
  apply bind_Ok_inv in Hrep as (last_row & Hlast & Hrep).
  apply bind_Ok_inv in Hrep as (delta_total & _ & Hrep).
  apply bind_Ok_inv in Hrep as (first_stamp & Hfs & Hrep).
  apply bind_Ok_inv in Hrep as (first_time & Hft & Hrep).
  apply bind_Ok_inv in Hrep as (last_stamp & Hls & Hrep).
  apply bind_Ok_inv in Hrep as (last_time & Hlt & Hrep).
  apply bind_Ok_inv in Hrep as (summary' & _ & Hrep).
  injection Hrep as <- <- <- <- <- <- <- <-.
  apply month_rows_loop_Ok in Hloop. rewrite length_seq in Hloop.
  unfold first_of in Hfirst. unfold last_of in Hlast.
  rewrite last_lookup in Hlast.
  destruct (rows !! 0%nat) as [r0|] eqn:Hr0; [|done]. injection Hfirst as ->.
  destruct (rows !! (List.length rows - 1)%nat) as [rn|] eqn:Hrn; [|done].
  injection Hlast as ->.
  assert (List.length rows ≠ 0)%nat
    by (intros Hz; apply lookup_lt_Some in Hr0; lia).
  exists start_ts, end_ts, rows, registers, first_row, last_row.
  repeat split; try done; try lia.
  - by exists first_stamp, first_time.
  - by exists last_stamp, last_time.
Qed.

Lemma extract_month_data_fields_witness :
  exists start_ts end_ts rows registers,
    mktime (sample_env Sample.three) (month_start 2025 9) = Ok start_ts
    /\ mktime (sample_env Sample.three) (month_end 2025 9) = Ok end_ts
    /\ month_query (sample_env Sample.three) "https://egauge90707.egaug.es"
         (time_param_str start_ts 3600 end_ts) = Ok (rows, registers)
    /\ (2 ≤ List.length rows)%nat.
Proof.
  destruct (extract_month_data (sample_env Sample.three)
              "https://egauge90707.egaug.es" 2025 9) as [e|[err u a|u a ps pe h d s t]]
    eqn:Hrun; [exfalso; vm_compute in Hrun; discriminate Hrun
              |exfalso; vm_compute in Hrun; discriminate Hrun|].
  destruct (extract_month_data_fields _ _ _ _ _ _ _ _ _ _ _ _ Hrun)
    as (start_ts & end_ts & rows & registers & first_row & last_row
        & H1 & H2 & H3 & _ & _ & _ & H4 & _).
  exists start_ts, end_ts, rows, registers. by repeat split.
Defined.

(** X20. The first steps of the month extraction are outside every
    [try]: a month that is not one of 1..12, a year that is not a year of
    the calendar, and a first or last hour of the month without a
    timestamp make the function raise, where every later failure is
    returned as an error dictionary. *)
Theorem extract_month_data_escapes env url (year month : Z) :
  (~ (1 <= month <= 12)%Z ->
     extract_month_data env url year month = inl (IllegalMonthError month))
  /\ ((1 <= month <= 12)%Z -> ~ (1 <= year <= 9999)%Z ->
        exists e, extract_month_data env url year month = inl (Uncaught e))
  /\ ((1 <= month <= 12)%Z -> (1 <= year <= 9999)%Z ->
        forall e,
          mktime env (month_start year month) = Raise e
          \/ (exists start_ts, mktime env (month_start year month) = Ok start_ts
                               /\ mktime env (month_end year month) = Raise e) ->
          extract_month_data env url year month = inl (Uncaught e))
  /\ new_datetime 0 1 1 0 = Raise (ValueError "year 0 is out of range")
  /\ new_datetime 10000 1 1 0 = Raise (ValueError "year 10000 is out of range").
Proof.
  split; [|split; [|split]].
  - intros Hm. unfold extract_month_data.
    destruct (Z.leb_spec 1 month), (Z.leb_spec month 12); cbn [andb negb];
      try done; lia.
  - intros Hm Hy. unfold extract_month_data. rewrite (month_in_range month Hm).
    destruct (new_datetime_Raise year month 1 0 Hy) as [e ->]. by exists e.
  - intros Hm Hy e He. unfold extract_month_data.
    rewrite (month_in_range month Hm), !new_datetime_Ok by done.
    unfold month_start, month_end in He.
    destruct He as [->|(start_ts & -> & ->)]; reflexivity.
  - split; reflexivity.
Qed.

End months.
